(** * merge.py: merging Eagle board files

    A shallow embedding of [src/merge.py].  The script works on lxml element
    trees which it mutates in place; here an element is a value, a function
    that mutates its output element returns the new element, and a function
    that may stop the run ([sys.exit], an uncaught exception) returns a
    [result]. *)

From Stdlib Require Import ZArith String Ascii List Lia.
From Stdlib Require Import Floats.SpecFloat.
From stdpp Require Import base strings gmap list pretty.

Set Warnings "-register-all,-clear-no-such-hyp".

Open Scope string_scope.
Open Scope Z_scope.
Open Scope list_scope.

(** ** Python strings, integers and floats

    A [str] is a sequence of code points; the model keeps it as its UTF-8
    encoding, a string of bytes.  Equality, concatenation and order are
    those of the bytes, which for UTF-8 are those of the code points. *)

Module Py.

(** [s < t] on [str]: code points in order, here bytes in order. *)
Definition str_lt (s t : string) : bool := String.ltb s t.

(** [x < y] where [x] and [y] are [str] or [None]; the result [None] is
    a [TypeError]: Python 3 orders [None] neither with [None] nor with a
    [str]. *)
Definition opt_str_lt (x y : option string) : option bool :=
  match x, y with
  | Some s, Some t => Some (str_lt s t)
  | _, _ => None
  end.

(** [c in t] for a character [c]. *)
Fixpoint contains (c : ascii) (t : string) : bool :=
  match t with
  | EmptyString => false
  | String c' t' => if Ascii.eqb c c' then true else contains c t'
  end.

Definition is_digit (c : ascii) : bool :=
  let n := nat_of_ascii c in (48 <=? n)%nat && (n <=? 57)%nat.

Definition is_letter (c : ascii) : bool :=
  let n := nat_of_ascii c in
  ((65 <=? n)%nat && (n <=? 90)%nat) || ((97 <=? n)%nat && (n <=? 122)%nat).

(** The longest prefix of [s] whose characters satisfy [p], and the rest. *)
Fixpoint span (p : ascii -> bool) (s : string) : string * string :=
  match s with
  | EmptyString => (EmptyString, EmptyString)
  | String c s' =>
      if p c then let '(a, b) := span p s' in (String c a, b)
      else (EmptyString, s)
  end.

Definition digit_val (c : ascii) : Z := Z.of_nat (nat_of_ascii c) - 48.

(** [int(s)] for a string of decimal digits. *)
Definition int_of_digits (s : string) : Z :=
  fold_left (fun acc c => 10 * acc + digit_val c) (list_ascii_of_string s) 0.

(** [str(n)] for an [int]. *)
Definition str_of_int (n : Z) : string := pretty n.

(** What stands for a sequence of bytes that is no UTF-8: a number that is
    no code point.  No [str] has such bytes. *)
Definition malformed : N := 1114112.

(** The code points of a string in UTF-8: a byte below 128 is a code point,
    a byte from 192 on starts one of two, three or four bytes.  [more]
    bytes of the code point [acc] are yet to come. *)
Fixpoint code_points_from (more : nat) (acc : N) (s : string) : list N :=
  match s with
  | EmptyString => match more with O => [] | S _ => [malformed] end
  | String c s' =>
      let b := N_of_ascii c in
      match more with
      | O =>
          if (b <? 128)%N then b :: code_points_from 0 0 s'
          else if (b <? 192)%N then malformed :: code_points_from 0 0 s'
          else if (b <? 224)%N then code_points_from 1 (b mod 32) s'
          else if (b <? 240)%N then code_points_from 2 (b mod 16) s'
          else if (b <? 248)%N then code_points_from 3 (b mod 8) s'
          else malformed :: code_points_from 0 0 s'
      | S more' =>
          if (b <? 128)%N || (192 <=? b)%N then malformed :: code_points_from 0 0 s'
          else
            let acc' := (acc * 64 + b mod 64)%N in
            match more' with
            | O => acc' :: code_points_from 0 0 s'
            | S _ => code_points_from more' acc' s'
            end
      end
  end.

Definition code_points (s : string) : list N := code_points_from 0 0 s.

(** The code points of the digits 0 of Unicode 14.0, the version that
    CPython 3.11 knows: every decimal digit (category Nd) is one of the ten
    code points that start at one of these. *)
Definition decimal_zeros : list N :=
  [48; 1632; 1776; 1984; 2406; 2534; 2662; 2790; 2918; 3046; 3174; 3302;
   3430; 3558; 3664; 3792; 3872; 4160; 4240; 6112; 6160; 6470; 6608; 6784;
   6800; 6992; 7088; 7232; 7248; 42528; 43216; 43264; 43472; 43504; 43600;
   44016; 65296; 66720; 68912; 69734; 69872; 69942; 70096; 70384; 70736;
   70864; 71248; 71360; 71472; 71904; 72016; 72784; 73040; 73120; 92768;
   92864; 93008; 120782; 120792; 120802; 120812; 120822; 123200; 123632;
   125264; 130032]%N.

(** The value of a decimal digit; [None] for another character.  These are
    the characters that the pattern [\d] matches and that [int] and [float]
    read as digits. *)
Definition decimal (c : N) : option Z :=
  (fun z => Z.of_N (c - z)) <$>
  List.find (fun z => (z <=? c)%N && (c <? z + 10)%N) decimal_zeros.

(** The white space of Unicode beyond ASCII. *)
Definition is_unicode_space (c : N) : bool :=
  bool_decide (c ∈ [133; 160; 5760; 8192; 8193; 8194; 8195; 8196; 8197; 8198;
                    8199; 8200; 8201; 8202; 8232; 8233; 8239; 8287; 12288]%N).

(** [int(s)] for a string [s] of decimal digits.  CPython reads no more
    than 4300 digits ([sys.get_int_max_str_digits()]); [None] is the
    [ValueError] it raises on more. *)
Definition int_of_str (s : string) : option Z :=
  let cs := code_points s in
  if (4300 <? length cs)%nat then None
  else Some (fold_left (fun acc c => 10 * acc + default 0 (decimal c)) cs 0).

(** *** [float]: IEEE 754 binary64 *)

Definition float := spec_float.
Definition prec : Z := 53.
Definition emax : Z := 1024.

Definition fadd (x y : float) : float := SFadd prec emax x y.
Definition fneg (x : float) : float := SFopp x.
Definition fzero : float := S754_zero false.

#[global] Instance float_eq_dec : EqDecision float.
Proof. unfold float. solve_decision. Defined.

(** The float nearest to [p / q] (ties to even), for [p, q > 0]. *)
Definition round_ratio (neg : bool) (p q : positive) : float :=
  SFdiv prec emax (S754_finite neg p 0) (S754_finite false q 0).

(** The float nearest to [m * 10 ^ e]. *)
Definition round_decimal (neg : bool) (m e : Z) : float :=
  match m with
  | Zpos p =>
      if 0 <=? e then round_ratio neg (p * Z.to_pos (10 ^ e)) 1
      else round_ratio neg p (Z.to_pos (10 ^ (- e)))
  | _ => S754_zero neg
  end.

(** Whitespace that [float] strips from both ends of a [str]. *)
Definition is_space (c : ascii) : bool :=
  let n := nat_of_ascii c in
  ((9 <=? n)%nat && (n <=? 13)%nat) || (n =? 32)%nat.

Fixpoint lstrip (s : string) : string :=
  match s with
  | String c s' => if is_space c then lstrip s' else s
  | EmptyString => s
  end.
Definition strip (s : string) : string :=
  String.rev (lstrip (String.rev (lstrip s))).

(** Underscores may stand between two digits and are dropped. *)
Fixpoint drop_underscores (prev : ascii) (s : string) : option string :=
  match s with
  | EmptyString => if Ascii.eqb prev "_" then None else Some EmptyString
  | String c s' =>
      if Ascii.eqb c "_" then
        if is_digit prev then drop_underscores c s' else None
      else if Ascii.eqb prev "_" && negb (is_digit c) then None
      else String c <$> drop_underscores c s'
  end.

Definition lower (c : ascii) : ascii :=
  let n := nat_of_ascii c in
  if (65 <=? n)%nat && (n <=? 90)%nat then ascii_of_nat (n + 32) else c.
Fixpoint lowercase (s : string) : string :=
  match s with
  | EmptyString => EmptyString
  | String c s' => String (lower c) (lowercase s')
  end.

(** An optional sign. *)
Definition take_sign (s : string) : bool * string :=
  match s with
  | String "-" s' => (true, s')
  | String "+" s' => (false, s')
  | _ => (false, s)
  end.

(** The exponent part: empty, or [e] or [E], an optional sign and digits. *)
Definition parse_exponent (s : string) : option Z :=
  match s with
  | EmptyString => Some 0
  | String c s' =>
      if Ascii.eqb (lower c) "e" then
        let '(neg, s'') := take_sign s' in
        let '(ds, rest) := span is_digit s'' in
        match ds, rest with
        | String _ _, EmptyString =>
            Some (if neg then - int_of_digits ds else int_of_digits ds)
        | _, _ => None
        end
      else None
  end.

(** What [float] and [int] read in place of a [str]: a decimal digit
    beyond ASCII stands for the ASCII digit of its value, white space beyond
    ASCII for a blank; another character beyond ASCII is an error. *)
Fixpoint to_ascii (cs : list N) : option string :=
  match cs with
  | [] => Some EmptyString
  | c :: cs' =>
      c' ← (if (c <? 127)%N then Some (ascii_of_N c)
            else if is_unicode_space c then Some " "%char
            else (fun d => ascii_of_N (48 + Z.to_N d)) <$> decimal c);
      String c' <$> to_ascii cs'
  end.

(** [float(s)] for a [str]; [None] is a [ValueError]. *)
Definition float_of_str (s : string) : option float :=
  s ← to_ascii (code_points s);
  s ← drop_underscores "000" (strip s);
  let '(neg, s) := take_sign s in
  let l := lowercase s in
  if String.eqb l "inf" || String.eqb l "infinity" then Some (S754_infinity neg)
  else if String.eqb l "nan" then Some S754_nan
  else
    let '(ip, s) := span is_digit s in
    let '(fp, s) :=
      match s with
      | String "." s' => span is_digit s'
      | _ => (EmptyString, s)
      end in
    match (ip +:+ fp)%string with
    | EmptyString => None
    | ds =>
        e ← parse_exponent s;
        Some (round_decimal neg (int_of_digits ds) (e - Z.of_nat (String.length fp)))
    end.

(** The number of decimal digits of [n], 0 for [n <= 0]. *)
Definition ndigits (n : Z) : Z :=
  if n <=? 0 then 0 else Z.of_nat (String.length (str_of_int n)).

(** [decpt] for [p / q]: the [k] with [10 ^ (k-1) <= p / q < 10 ^ k]. *)
Definition decimal_point (p q : Z) : Z :=
  if q <=? p then ndigits (p / q)
  else 1 - ndigits ((q + p - 1) / p - 1).

(** [floor (p / q / 10 ^ j)] and whether the division was exact. *)
Definition scale_floor (p q j : Z) : Z * bool :=
  let '(n, d) := if 0 <=? j then (p, q * 10 ^ j) else (p * 10 ^ (- j), q) in
  (n / d, n mod d =? 0).

(** Which of the candidates [c * 10 ^ j] and [(c + 1) * 10 ^ j] is nearer to
    [p / q], which lies between them: [2 p / q] is compared with
    [(2 c + 1) * 10 ^ j]; half way between them, the one with the even last
    digit is. *)
Definition nearer_low (p q c j : Z) : bool :=
  let '(n, d) := if 0 <=? j then (p, q * 10 ^ j) else (p * 10 ^ (- j), q) in
  match 2 * n ?= (2 * c + 1) * d with
  | Lt => true
  | Eq => Z.even c
  | Gt => false
  end.

Definition strip_zeros (c : Z) (j : Z) : Z * Z :=
  let s := String.rev (str_of_int c) in
  let '(z, r) := span (fun a => Ascii.eqb a "0") s in
  (int_of_digits (String.rev r), j + Z.of_nat (String.length z)).

(** The shortest digits [c], with [j], such that [c * 10 ^ j] reads back
    as the positive float [x = p / q]; the nearest to [x] when two of the
    same length do. *)
Definition shortest (x : float) (p q : Z) : Z * Z :=
  let k := decimal_point p q in
  let try (n : Z) : option (Z * Z) :=
    let j := k - n in
    let '(lo, exact) := scale_floor p q j in
    let reads c := bool_decide (round_decimal false c j = x) in
    if exact then (if reads lo then Some (lo, j) else None)
    else
      let hi := lo + 1 in
      match reads lo, reads hi with
      | true, true => Some (if nearer_low p q lo j then lo else hi, j)
      | true, false => Some (lo, j)
      | false, true => Some (hi, j)
      | false, false => None
      end in
  let fix go (ns : list Z) : Z * Z :=
    match ns with
    | [] => (0, 0)
    | n :: ns' => match try n with Some r => r | None => go ns' end
    end in
  let '(c, j) := go (map Z.of_nat (seq 1 17)) in
  strip_zeros c j.

Fixpoint zeros (n : nat) : string :=
  match n with O => EmptyString | S n' => String "0" (zeros n') end.

(** The digits [ds] with the decimal point after the first [decpt]. *)
Definition format_repr (neg : bool) (ds : string) (decpt : Z) : string :=
  let n := Z.of_nat (String.length ds) in
  let body :=
    if (decpt <=? -4) || (16 <? decpt) then
      let e := decpt - 1 in
      let mant :=
        match ds with
        | String d EmptyString => ds
        | String d rest => String d ("." +:+ rest)
        | EmptyString => ds
        end in
      let es := str_of_int (Z.abs e) in
      mant +:+ (if e <? 0 then "e-" else "e+")
           +:+ (if Z.abs e <? 10 then "0" else "") +:+ es
    else if decpt <=? 0 then "0." +:+ zeros (Z.to_nat (- decpt)) +:+ ds
    else if n <=? decpt then ds +:+ zeros (Z.to_nat (decpt - n)) +:+ ".0"
    else substring 0 (Z.to_nat decpt) ds +:+ "."
         +:+ substring (Z.to_nat decpt) (Z.to_nat (n - decpt)) ds in
  (if neg then "-" else "") +:+ body.

(** [str(x)] for a [float]: the shortest string that reads back as [x]. *)
Definition str_of_float (x : float) : string :=
  match x with
  | S754_nan => "nan"
  | S754_infinity neg => if neg then "-inf" else "inf"
  | S754_zero neg => if neg then "-0.0" else "0.0"
  | S754_finite neg m e =>
      let '(p, q) := if 0 <=? e then (Zpos m * 2 ^ e, 1) else (Zpos m, 2 ^ (- e)) in
      let '(c, j) := shortest (S754_finite false m e) p q in
      let ds := str_of_int c in
      format_repr neg ds (j + Z.of_nat (String.length ds))
  end.
End Py.

(** ** Element trees ([lxml.etree])

    An element: its tag, its attributes in document order (keys are
    distinct), the text before its first child, the text after its end tag
    and its children.  [text] and [tail] are [None] when there is no such
    text.  Comments and processing instructions are not modelled. *)

Inductive node := Node {
  tag : string;
  attrib : list (string * string);
  text : option string;
  tail : option string;
  children : list node }.

Fixpoint attr_get (key : string) (a : list (string * string)) : option string :=
  match a with
  | [] => None
  | (k, v) :: a' => if String.eqb k key then Some v else attr_get key a'
  end.

Fixpoint attr_set (key value : string) (a : list (string * string))
  : list (string * string) :=
  match a with
  | [] => [(key, value)]
  | (k, v) :: a' =>
      if String.eqb k key then (k, value) :: a'
      else (k, v) :: attr_set key value a'
  end.

(** [el.get(key)] *)
Definition get (el : node) (key : string) : option string :=
  attr_get key (attrib el).

(** [el.set(key, value)] *)
Definition set (el : node) (key value : string) : node :=
  Node (tag el) (attr_set key value (attrib el)) (text el) (tail el) (children el).

(** [el.append(child)] for a [child] that has no parent yet. *)
Definition append (el child : node) : node :=
  Node (tag el) (attrib el) (text el) (tail el) (children el ++ [child]).

(** The element that [etree.SubElement(el, tag)] and [etree.Element(tag)]
    create. *)
Definition Element (tag : string) : node := Node tag [] None None [].

(** [deepcopy(el)]: a copy of the subtree, its tail included.  Elements are
    values here, so the copy is the element. *)
Definition deepcopy (el : node) : node := el.

(** Replace the children of [el]: what mutating a child in place, through a
    reference that [find_child] returned, does to [el]. *)
Definition with_children (el : node) (cs : list node) : node :=
  Node (tag el) (attrib el) (text el) (tail el) cs.

(** The number of levels of a tree. *)
Fixpoint height (n : node) : nat :=
  match n with
  | Node _ _ _ _ cs => S (fold_right (fun c h => Nat.max (height c) h) O cs)
  end.

#[global] Instance node_eq_dec : EqDecision node.
Proof.
  refine (fix go (x y : node) {struct x} : Decision (x = y) :=
    match x, y with
    | Node t a tx tl cs, Node t' a' tx' tl' cs' =>
        let _ : EqDecision node := go in
        cast_if_and5 (decide (t = t')) (decide (a = a')) (decide (tx = tx'))
          (decide (tl = tl')) (decide (cs = cs'))
    end); abstract congruence.
Defined.

(** ** Outcomes of a run *)

(** How a call ends when it does not return.  A printed message is a list of
    pieces: literal text, or an element [n] standing for
    [etree.tostring(n).decode()]. *)
Inductive error :=
  (** [print_file_error_and_exit(infile, el, err)]: the message names the
      file, the path of [el] in its tree and [err]; exit status 2. *)
  | FileError (path : string) (el : node) (err : list (string + node))
  (** Uncaught Python exceptions. *)
  | TypeError
  | ValueError
  | AssertionError
  (** The loop bound of the model was reached; the bounds the model uses
      are never reached. *)
  | OutOfFuel.

Inductive result (A : Type) :=
  | Ok (a : A)
  | Raise (e : error).
Arguments Ok {A} a.
Arguments Raise {A} e.

#[global] Instance error_eq_dec : EqDecision error.
Proof. solve_decision. Defined.

#[global] Instance result_eq_dec {A} `{EqDecision A} : EqDecision (result A).
Proof. solve_decision. Defined.

Declare Scope result_scope.
Delimit Scope result_scope with result.
Notation "x <- c1 ;; c2" :=
  (match c1 with Ok x => c2 | Raise e => Raise e end)
  (at level 60, c1 at next level, right associativity) : result_scope.
Open Scope result_scope.

(** An exception where a Python primitive has no value. *)
Definition or_raise {A} (e : error) (o : option A) : result A :=
  match o with Some a => Ok a | None => Raise e end.

Record InputFile := {
  path : string;
  offsetx : Py.float;
  offsety : Py.float;
  rotation : Z }.

Definition print_file_error_and_exit {A} (infile : InputFile) (el : node)
  (err : list (string + node)) : result A :=
  Raise (FileError (path infile) el err).

Definition Unexpected_element : list (string + node) := [inl "Unexpected element"].

(** The line feed character, as a string. *)
Definition nl : string := String (ascii_of_nat 10) EmptyString.

(** ** [find_child], [find_or_create_child] *)

(** One entry of the [attrs] dictionary: a key with the wanted value, or
    with [None]. *)
Definition attrs_dict := list (string * option string).

(** The body of the loop over [attrs]: [valid] stays [True] unless some key
    has [child.get(key) != attrs[key] and attrs[key] != None]. *)
Definition valid (child : node) (attrs : attrs_dict) : bool :=
  forallb (fun kv => negb (bool_decide (get child kv.1 <> kv.2)
                           && bool_decide (kv.2 <> None))) attrs.

Definition child_matches (tag' : string) (attrs : attrs_dict) (child : node) : Prop :=
  tag child = tag' /\ valid child attrs = true.

#[global] Instance child_matches_dec tag' attrs child :
  Decision (child_matches tag' attrs child).
Proof. unfold child_matches. apply _. Defined.

(** [find_child(el, tag, attrs)] with the position of the child found:
    the script mutates the child it gets, which here is replacing the child
    at that position. *)
Definition find_child_at (el : node) (tag' : string) (attrs : attrs_dict)
  : option (nat * node) :=
  list_find (child_matches tag' attrs) (children el).

Definition find_child (el : node) (tag' : string) (attrs : attrs_dict)
  : option node :=
  snd <$> find_child_at el tag' attrs.

(** A reference to a child of [el], as [find_child] returns it to a caller
    that mutates the child, is the child's position: [child_at] reads it and
    [put_child] writes what the mutation left. *)
Definition child_at (el : node) (i : nat) : node :=
  default (Element "") (children el !! i).

Definition put_child (el : node) (i : nat) (child : node) : node :=
  with_children el (<[i := child]> (children el)).

(** [find_or_create_child(el, tag)] (no caller passes [attrs]): [el], with a
    new empty child at its end when it had none with this tag, and the
    position of the child returned. *)
Definition find_or_create_child (el : node) (tag' : string) : node * nat :=
  match find_child_at el tag' [] with
  | Some (i, _) => (el, i)
  | None => (append el (Element tag'), length (children el))
  end.

(** ** [xml_tree_compare] *)

(** [x < y] on [(key, value)] tuples. *)
Definition item_lt (x y : string * string) : bool :=
  if String.eqb x.1 y.1 then Py.str_lt x.2 y.2 else Py.str_lt x.1 y.1.

Fixpoint insert_item (x : string * string) (l : list (string * string))
  : list (string * string) :=
  match l with
  | [] => [x]
  | y :: l' => if item_lt x y then x :: l else y :: insert_item x l'
  end.

(** [items = attrib.items(); items.sort()] *)
Definition sorted_items (a : list (string * string)) : list (string * string) :=
  fold_left (fun acc x => insert_item x acc) a [].

(** [l1 < l2] on lists of tuples: the first place where they differ
    decides, a proper prefix is smaller. *)
Fixpoint items_lt (l1 l2 : list (string * string)) : bool :=
  match l1, l2 with
  | [], [] => false
  | [], _ :: _ => true
  | _ :: _, [] => false
  | x :: l1', y :: l2' =>
      if bool_decide (x = y) then items_lt l1' l2' else item_lt x y
  end.

(** [l.sort(key=cmp_to_key(cmp))]: the sort compares two elements by
    [cmp(x, y) < 0] and by nothing else, and an exception of [cmp] ends
    it.  [cmp] need not be a consistent order here (see
    [xml_tree_compare_stops_at_shorter_children]), so the result depends on
    which pairs are compared, and the model follows CPython's [list.sort]
    step by step: a list of fewer than two elements is left alone;
    otherwise the run that starts the list is found ([count_run]), reversed
    if it descends, and each element after it is put into place by binary
    insertion ([binarysort]).  This is the whole of [list.sort] for lists of
    fewer than 64 elements.  From 64 elements on CPython cuts the list into
    several such runs and merges them; the model sorts such a list as one
    run, which gives the same list whenever [cmp] is a consistent order on
    its elements, the sort being stable. *)
Definition key_lt (cmp : node -> node -> result Z) (x y : node) : result bool :=
  c <- cmp x y ;; Ok (c <? 0).

(** The loops of [count_run]: the run goes on while each element is less
    than the one before it (a descending run), or while none is (an
    ascending run).  [run] holds the run found so far, its last element
    [prev] first. *)
Fixpoint extend_run (cmp : node -> node -> result Z) (descending : bool)
  (run : list node) (prev : node) (l : list node)
  : result (list node * list node) :=
  match l with
  | [] => Ok (run, [])
  | x :: l' =>
      lt <- key_lt cmp x prev ;;
      if Bool.eqb lt descending then extend_run cmp descending (x :: run) x l'
      else Ok (run, l)
  end.

(** [count_run], and the reversal of a descending run: the run that starts
    [l], in ascending order, and the rest of [l]. *)
Definition count_run (cmp : node -> node -> result Z) (l : list node)
  : result (list node * list node) :=
  match l with
  | x0 :: x1 :: l' =>
      descending <- key_lt cmp x1 x0 ;;
      r <- extend_run cmp descending [x1; x0] x1 l' ;;
      Ok (if descending then r.1 else rev r.1, r.2)
  | _ => Ok (l, [])
  end.

(** The loop of [binarysort] that looks for the place of [pivot] in the
    sorted [run], between the positions [l] and [r], [l < r]: the middle
    element is compared with [pivot] until the interval is empty.  Each
    step makes the interval shorter, so [r - l] steps are enough. *)
Fixpoint bisect (cmp : node -> node -> result Z) (steps : nat) (pivot : node)
  (run : list node) (l r : nat) : result nat :=
  match steps with
  | O => Ok l
  | S steps' =>
      let p := (l + (r - l) / 2)%nat in
      match run !! p with
      | None => Ok l
      | Some y =>
          lt <- key_lt cmp pivot y ;;
          let '(l, r) := if lt then (l, p) else (S p, r) in
          if (l <? r)%nat then bisect cmp steps' pivot run l r else Ok l
      end
  end.

(** [binarysort]: each element of [rest], from left to right, is inserted
    into the sorted [run] at the place that [bisect] finds. *)
Fixpoint binarysort (cmp : node -> node -> result Z) (run rest : list node)
  : result (list node) :=
  match rest with
  | [] => Ok run
  | pivot :: rest' =>
      i <- bisect cmp (length run) pivot run 0 (length run) ;;
      binarysort cmp (take i run ++ pivot :: drop i run) rest'
  end.

Definition sort_by (cmp : node -> node -> result Z) (l : list node)
  : result (list node) :=
  r <- count_run cmp l ;; binarysort cmp r.1 r.2.

(** [for achild, bchild in zip(achildren, bchildren): ...], then
    [return 0]: [zip] stops at the end of the shorter list. *)
Fixpoint compare_zip (cmp : node -> node -> result Z) (l1 l2 : list node)
  : result Z :=
  match l1, l2 with
  | achild :: l1', bchild :: l2' =>
      cmpval <- cmp achild bchild ;;
      if cmpval <? 0 then Ok (-1)
      else if 0 <? cmpval then Ok 1
      else compare_zip cmp l1' l2'
  | _, _ => Ok 0
  end.

(** [xml_tree_compare(a, b)], with a bound on the depth of the recursion. *)
Fixpoint xml_tree_compare_fuel (fuel : nat) (a b : node) : result Z :=
  match fuel with
  | O => Raise OutOfFuel
  | S fuel' =>
      if Py.str_lt (tag a) (tag b) then Ok (-1)
      else if Py.str_lt (tag b) (tag a) then Ok 1
      else
        lt <- or_raise TypeError (Py.opt_str_lt (tail a) (tail b)) ;;
        if lt then Ok (-1)
        else
          gt <- or_raise TypeError (Py.opt_str_lt (tail b) (tail a)) ;;
          if gt then Ok 1
          else
            let aitems := sorted_items (attrib a) in
            let bitems := sorted_items (attrib b) in
            if items_lt aitems bitems then Ok (-1)
            else if items_lt bitems aitems then Ok 1
            else
              achildren <- sort_by (xml_tree_compare_fuel fuel') (children a) ;;
              bchildren <- sort_by (xml_tree_compare_fuel fuel') (children b) ;;
              compare_zip (xml_tree_compare_fuel fuel') achildren bchildren
  end.

(** [xml_tree_compare(a, b)]: the recursion goes down one level of both
    trees at each call. *)
Definition xml_tree_compare (a b : node) : result Z :=
  xml_tree_compare_fuel (Nat.max (height a) (height b)) a b.

(** ** Loops over the children of an input element *)

(** [for child in in_el: ...] where the body updates a state [s] (the output
    element, and what else the body writes to) or stops the run. *)
Fixpoint for_each {S} (body : S -> node -> result S) (s : S) (l : list node)
  : result S :=
  match l with
  | [] => Ok s
  | child :: l' => s' <- body s child ;; for_each body s' l'
  end.

(** The check that ends most merge functions:
    [if len(in_el.attrib) > 0: print_file_error_and_exit(...)]. *)
Definition no_attributes {A} (infile : InputFile) (in_el : node) (s : A)
  : result A :=
  match attrib in_el with
  | [] => Ok s
  | _ :: _ => print_file_error_and_exit infile in_el [inl "Unexpected attributes"]
  end.

(** A warning printed by [print_file_warning(infile, warn)]. *)
Definition warning : Type := string * list (string + node).

(** ** [sync_child_error], [sync_child] *)

Definition sync_child_error (el : node) (tag' : string) (child : node)
  (infile : InputFile) (err : option string) : result node :=
  let err := match err with None => "Unsupported difference" | Some e => e end in
  match find_child el tag' [] with
  | None => Ok (append el (deepcopy child))
  | Some el_child =>
      c <- xml_tree_compare el_child child ;;
      if c =? 0 then Ok el
      else print_file_error_and_exit infile child
             [inl err; inl nl; inr el_child; inl nl; inr child]
  end.

Definition sync_child (el : node) (tag' : string) (child : node) : node :=
  match find_child el tag' [] with
  | None => append el (deepcopy child)
  | Some _ => el
  end.

(** ** [merge_xml_settings], [merge_xml_layers] *)

Definition merge_xml_settings_body (infile : InputFile)
  (s : node * list warning) (child : node) : result (node * list warning) :=
  let '(out_el, log) := s in
  if String.eqb (tag child) "setting" then
    match children child with
    | _ :: _ => print_file_error_and_exit infile child [inl "Expected empty"]
    | [] =>
        let attrs := map (fun kv => (kv.1, @None string)) (attrib child) in
        match find_child out_el "setting" attrs with
        | None => Ok (append out_el (deepcopy child), log)
        | Some found =>
            c <- xml_tree_compare found child ;;
            if c =? 0 then Ok (out_el, log)
            else Ok (out_el,
                     log ++ [(path infile,
                              [inl "Incompatible settings "; inl nl; inr found; inl nl; inr child])])
        end
    end
  else print_file_error_and_exit infile child Unexpected_element.

Definition merge_xml_settings (out_el in_el : node) (infile : InputFile)
  (log : list warning) : result (node * list warning) :=
  s <- for_each (merge_xml_settings_body infile) (out_el, log) (children in_el) ;;
  no_attributes infile in_el s.

Definition merge_xml_layers_body (infile : InputFile) (out_el child : node)
  : result node :=
  if String.eqb (tag child) "layer" then
    match find_child out_el "layer" [("number", get child "number")] with
    | None => Ok (append out_el (deepcopy child))
    | Some _ => Ok out_el
    end
  else print_file_error_and_exit infile child Unexpected_element.

Definition merge_xml_layers (out_el in_el : node) (infile : InputFile)
  : result node :=
  s <- for_each (merge_xml_layers_body infile) out_el (children in_el) ;;
  no_attributes infile in_el s.

(** ** The geometry transform *)

Definition offset_and_rotate (x y : Py.float) (infile : InputFile)
  : result (Py.float * Py.float) :=
  p <- (if rotation infile =? 0 then Ok (x, y)
        else if rotation infile =? 90 then Ok (Py.fneg y, x)
        else if rotation infile =? 180 then Ok (Py.fneg x, Py.fneg y)
        else if rotation infile =? 270 then Ok (y, Py.fneg x)
        else Raise AssertionError) ;;
  Ok (Py.fadd p.1 (offsetx infile), Py.fadd p.2 (offsety infile)).

Definition update_xml_routing_pos (el : node) (xattr yattr : string)
  (infile : InputFile) : result node :=
  match get el xattr, get el yattr with
  | Some x, Some y =>
      fx <- or_raise ValueError (Py.float_of_str x) ;;
      fy <- or_raise ValueError (Py.float_of_str y) ;;
      p <- offset_and_rotate fx fy infile ;;
      Ok (set (set el xattr (Py.str_of_float p.1)) yattr (Py.str_of_float p.2))
  | _, _ => print_file_error_and_exit infile el Unexpected_element
  end.

(** [s] without the line feed that ends it, if one does. *)
Fixpoint without_final_line_feed (s : string) : string :=
  match s with
  | EmptyString => EmptyString
  | String c s' =>
      if Ascii.eqb c "010" && String.eqb s' "" then EmptyString
      else String c (without_final_line_feed s')
  end.

(** [re.match] with the pattern of the source: from the start of [rot],
    group 1 is any number of letters a-z and A-Z, group 2 is one or more
    decimal digits, then comes the end anchor.  The letters matched are all
    the leading ones (a digit must follow them); the end anchor matches at
    the end of the string and before a line feed that ends it, so the
    digits are all that follows the letters, up to such a line feed. *)
Definition match_rot (rot : string) : option (string * string) :=
  let '(prefix, rest) := Py.span Py.is_letter rot in
  let digits := without_final_line_feed rest in
  match Py.code_points digits with
  | [] => None
  | cs =>
      if forallb (fun c => bool_decide (is_Some (Py.decimal c))) cs
      then Some (prefix, digits)
      else None
  end.

Definition update_xml_routing_rot (el : node) (rotattr : string)
  (infile : InputFile) : result node :=
  let rot :=
    match get el rotattr with
    | None => "R0"
    | Some r => if String.eqb r "" then "R0" else r
    end in
  match match_rot rot with
  | None => print_file_error_and_exit infile el
              [inl ("Unsupported rotation attribute " +:+ rot)]
  | Some (prefix, digits) =>
      introt <- or_raise ValueError (Py.int_of_str digits) ;;
      let introt :=
        if Py.contains "M" prefix then (introt - rotation infile) mod 360
        else (introt + rotation infile) mod 360 in
      let rot := prefix +:+ Py.str_of_int introt in
      if bool_decide (get el rotattr = None) && String.eqb rot "R0" then Ok el
      else Ok (set el rotattr rot)
  end.

(** [update_routing(el, infile)]; the element it returns is [el] after the
    call. *)
Fixpoint update_routing (infile : InputFile) (el : node) {struct el}
  : result node :=
  match el with
  | Node t _ _ _ cs =>
      let pos el x y := update_xml_routing_pos el x y infile in
      let rot el := update_xml_routing_rot el "rot" infile in
      let each :=
        fix each (cs : list node) : result (list node) :=
          match cs with
          | [] => Ok []
          | child :: cs' =>
              child' <- update_routing infile child ;;
              cs'' <- each cs' ;;
              Ok (child' :: cs'')
          end in
      if String.eqb t "wire" then
        el <- pos el "x1" "y1" ;; pos el "x2" "y2"
      else if String.eqb t "polygon" then
        cs' <- each cs ;; Ok (with_children el cs')
      else if String.eqb t "text" then
        el <- pos el "x" "y" ;; rot el
      else if String.eqb t "dimension" then
        el <- pos el "x1" "y1" ;; el <- pos el "x2" "y2" ;; pos el "x3" "y3"
      else if String.eqb t "circle" then pos el "x" "y"
      else if String.eqb t "rectangle" then
        el <- pos el "x1" "y1" ;; pos el "x2" "y2"
      else if String.eqb t "frame" then
        el <- pos el "x1" "y1" ;; pos el "x2" "y2"
      else if String.eqb t "hole" then pos el "x" "y"
      else if String.eqb t "contactref" then Ok el
      else if String.eqb t "via" then pos el "x" "y"
      else if String.eqb t "element" then
        el <- pos el "x" "y" ;;
        el <- rot el ;;
        cs' <- each cs ;;
        Ok (with_children el cs')
      else if String.eqb t "vertex" then pos el "x" "y"
      else if String.eqb t "attribute" then
        el <- pos el "x" "y" ;; rot el
      else if String.eqb t "variant" then Ok el
      else print_file_error_and_exit infile el Unexpected_element
  end.

(** [for child in el: update_routing(child, infile)] *)
Fixpoint update_routing_each (infile : InputFile) (cs : list node)
  : result (list node) :=
  match cs with
  | [] => Ok []
  | child :: cs' =>
      child' <- update_routing infile child ;;
      cs'' <- update_routing_each infile cs' ;;
      Ok (child' :: cs'')
  end.

(** ** [override_name_label] *)

Definition override_name_label (el : node) (old_name : string) : node :=
  if bool_decide (get el "name" = Some old_name) then el
  else
    match find_child_at el "attribute" [("name", Some "NAME")] with
    | None => el
    | Some (i, name_attr) =>
        let name_attr_dup := deepcopy name_attr in
        let name_attr_dup := set name_attr_dup "name" "NAME1" in
        let name_attr_dup := set name_attr_dup "value" old_name in
        let el := append el name_attr_dup in
        put_child el i (set name_attr "display" "off")
    end.

(** ** [append_xml_plain] *)

Definition append_xml_plain_body (infile : InputFile) (out_el child : node)
  : result node :=
  new_child <- update_routing infile (deepcopy child) ;;
  Ok (append out_el new_child).

Definition append_xml_plain (out_el in_el : node) (infile : InputFile)
  : result node :=
  s <- for_each (append_xml_plain_body infile) out_el (children in_el) ;;
  no_attributes infile in_el s.

(** ** [merge_xml_packages], [merge_xml_library], [merge_xml_libraries] *)

(** ["{0}".format(x)] for [x] a [str] or [None]. *)
Definition format_opt (x : option string) : string :=
  match x with Some s => s | None => "None" end.

Definition merge_xml_packages_body (infile : InputFile) (out_el child : node)
  : result node :=
  if String.eqb (tag child) "package" then
    match find_child out_el "package" [("name", get child "name")] with
    | None => Ok (append out_el (deepcopy child))
    | Some out_child =>
        c <- xml_tree_compare out_child child ;;
        if c =? 0 then Ok out_el
        else print_file_error_and_exit infile child
               [inl ("Embedded libraries contain different packages of the same name "
                     +:+ format_opt (get child "name") +:+ nl);
                inr out_child; inl nl; inr child]
    end
  else print_file_error_and_exit infile child Unexpected_element.

Definition merge_xml_packages (out_el in_el : node) (infile : InputFile)
  : result node :=
  s <- for_each (merge_xml_packages_body infile) out_el (children in_el) ;;
  no_attributes infile in_el s.

Definition merge_xml_library_body (infile : InputFile) (out_el child : node)
  : result node :=
  if String.eqb (tag child) "description" then
    Ok (sync_child out_el "description" child)
  else if String.eqb (tag child) "packages" then
    let '(out_el, i) := find_or_create_child out_el "packages" in
    packages <- merge_xml_packages (child_at out_el i) child infile ;;
    Ok (put_child out_el i packages)
  else print_file_error_and_exit infile child Unexpected_element.

Definition merge_xml_library (out_el in_el : node) (infile : InputFile)
  : result node :=
  if bool_decide (get out_el "name" = get in_el "name") then
    for_each (merge_xml_library_body infile) out_el (children in_el)
  else Raise AssertionError.

Definition merge_xml_libraries_body (infile : InputFile) (out_el child : node)
  : result node :=
  if String.eqb (tag child) "library" then
    match find_child_at out_el "library" [("name", get child "name")] with
    | None => Ok (append out_el (deepcopy child))
    | Some (i, out_child) =>
        out_child <- merge_xml_library out_child child infile ;;
        Ok (put_child out_el i out_child)
    end
  else print_file_error_and_exit infile child Unexpected_element.

Definition merge_xml_libraries (out_el in_el : node) (infile : InputFile)
  : result node :=
  s <- for_each (merge_xml_libraries_body infile) out_el (children in_el) ;;
  no_attributes infile in_el s.

(** ** The name collision loop

    [while find_child(out_el, tag, { "name" : name + postfix }) != None:
       postfix = sep + str(postfix_num); postfix_num += 1]
    with [sep] the text between the name and the number: ["_"] for
    elements, nothing for signals.  [fuel] bounds the number of times the
    body runs; the value is the [postfix] the loop ends with. *)
Fixpoint probe (fuel : nat) (out_el : node) (tag' sep name postfix : string)
  (postfix_num : Z) : result string :=
  match find_child out_el tag' [("name", Some (name +:+ postfix))] with
  | None => Ok postfix
  | Some _ =>
      match fuel with
      | O => Raise OutOfFuel
      | S fuel' =>
          probe fuel' out_el tag' sep name
                (sep +:+ Py.str_of_int postfix_num) (postfix_num + 1)
      end
  end.

(** The loop as the two callers run it, from [postfix = ""] and
    [postfix_num = 1]: the name it settles on.  The body runs once for each
    candidate that is taken, and no more often than [out_el] has children. *)
Definition unique_name (out_el : node) (tag' sep name : string) : result string :=
  postfix <- probe (length (children out_el)) out_el tag' sep name "" 1 ;;
  Ok (name +:+ postfix).

(** ** [append_xml_elements] *)

Definition append_xml_elements_body (infile : InputFile)
  (s : node * gmap string string) (child : node)
  : result (node * gmap string string) :=
  let '(out_el, element_map) := s in
  if String.eqb (tag child) "element" then
    new_child <- update_routing infile (deepcopy child) ;;
    prev_name <- or_raise TypeError (get new_child "name") ;;
    name <- unique_name out_el "element" "_" prev_name ;;
    let new_child := set new_child "name" name in
    if bool_decide (name <> prev_name) then
      Ok (append out_el (override_name_label new_child prev_name),
          <[prev_name := name]> element_map)
    else Ok (append out_el new_child, element_map)
  else print_file_error_and_exit infile child Unexpected_element.

Definition append_xml_elements (out_el in_el : node)
  (element_map : gmap string string) (infile : InputFile)
  : result (node * gmap string string) :=
  s <- for_each (append_xml_elements_body infile) (out_el, element_map)
         (children in_el) ;;
  no_attributes infile in_el s.

(** ** [update_signal_element_names], [append_xml_signals] *)

Definition update_signal_element_names (el : node)
  (element_map : gmap string string) : node :=
  if negb (String.eqb (tag el) "contactref") then el
  else
    match get el "element" with
    | Some name =>
        match element_map !! name with
        | Some new_name => set el "element" new_name
        | None => el
        end
    | None => el
    end.

(** [for new_child2 in new_child: update_routing(new_child2, infile);
    update_signal_element_names(new_child2, element_map)] *)
Fixpoint update_signal_children (infile : InputFile)
  (element_map : gmap string string) (cs : list node) : result (list node) :=
  match cs with
  | [] => Ok []
  | new_child2 :: cs' =>
      new_child2 <- update_routing infile new_child2 ;;
      let new_child2 := update_signal_element_names new_child2 element_map in
      cs'' <- update_signal_children infile element_map cs' ;;
      Ok (new_child2 :: cs'')
  end.

Definition append_xml_signals_body (element_map : gmap string string)
  (infile : InputFile) (out_el child : node) : result node :=
  if String.eqb (tag child) "signal" then
    let new_child := deepcopy child in
    cs <- update_signal_children infile element_map (children new_child) ;;
    let new_child := with_children new_child cs in
    name <- or_raise TypeError (get new_child "name") ;;
    name <- unique_name out_el "signal" "" name ;;
    Ok (append out_el (set new_child "name" name))
  else print_file_error_and_exit infile child Unexpected_element.

Definition append_xml_signals (out_el in_el : node)
  (element_map : gmap string string) (infile : InputFile) : result node :=
  s <- for_each (append_xml_signals_body element_map infile) out_el
         (children in_el) ;;
  no_attributes infile in_el s.

(** ** [append_xml_errors] *)

Definition append_xml_errors (out_el in_el : node) (infile : InputFile)
  : result node :=
  Ok out_el.

(** ** [merge_xml_board], [merge_xml_drawing], [merge_xml_eagle], [main] *)

(** The state of the loop of [merge_xml_board]: the output board and
    [element_map]. *)
Definition merge_xml_board_body (infile : InputFile)
  (s : node * gmap string string) (child : node)
  : result (node * gmap string string) :=
  let '(out_el, element_map) := s in
  let t := tag child in
  if String.eqb t "plain" then
    let '(out_el, i) := find_or_create_child out_el "plain" in
    c <- append_xml_plain (child_at out_el i) child infile ;;
    Ok (put_child out_el i c, element_map)
  else if String.eqb t "libraries" then
    let '(out_el, i) := find_or_create_child out_el "libraries" in
    c <- merge_xml_libraries (child_at out_el i) child infile ;;
    Ok (put_child out_el i c, element_map)
  else if String.eqb t "attributes" then
    out_el <- sync_child_error out_el "attributes" child infile None ;;
    Ok (out_el, element_map)
  else if String.eqb t "variantdefs" then
    out_el <- sync_child_error out_el "variantdefs" child infile None ;;
    Ok (out_el, element_map)
  else if String.eqb t "classes" then
    out_el <- sync_child_error out_el "classes" child infile None ;;
    Ok (out_el, element_map)
  else if String.eqb t "designrules" then
    out_el <- sync_child_error out_el "designrules" child infile
                (Some "Design rules must be equivalent") ;;
    Ok (out_el, element_map)
  else if String.eqb t "autorouter" then
    Ok (sync_child out_el "autorouter" child, element_map)
  else if String.eqb t "elements" then
    let '(out_el, i) := find_or_create_child out_el "elements" in
    r <- append_xml_elements (child_at out_el i) child element_map infile ;;
    Ok (put_child out_el i r.1, r.2)
  else if String.eqb t "signals" then
    let '(out_el, i) := find_or_create_child out_el "signals" in
    c <- append_xml_signals (child_at out_el i) child element_map infile ;;
    Ok (put_child out_el i c, element_map)
  else if String.eqb t "errors" then
    let '(out_el, i) := find_or_create_child out_el "errors" in
    c <- append_xml_errors (child_at out_el i) child infile ;;
    Ok (put_child out_el i c, element_map)
  else print_file_error_and_exit infile child Unexpected_element.

Definition merge_xml_board (out_el in_el : node) (infile : InputFile)
  : result node :=
  let element_map : gmap string string := empty in
  s <- for_each (merge_xml_board_body infile) (out_el, element_map)
         (children in_el) ;;
  no_attributes infile in_el s.1.

Definition merge_xml_drawing_body (infile : InputFile)
  (s : node * list warning) (child : node) : result (node * list warning) :=
  let '(out_el, log) := s in
  let t := tag child in
  if String.eqb t "settings" then
    let '(out_el, i) := find_or_create_child out_el "settings" in
    r <- merge_xml_settings (child_at out_el i) child infile log ;;
    Ok (put_child out_el i r.1, r.2)
  else if String.eqb t "grid" then
    Ok (sync_child out_el "grid" child, log)
  else if String.eqb t "layers" then
    let '(out_el, i) := find_or_create_child out_el "layers" in
    c <- merge_xml_layers (child_at out_el i) child infile ;;
    Ok (put_child out_el i c, log)
  else if String.eqb t "board" then
    let '(out_el, i) := find_or_create_child out_el "board" in
    c <- merge_xml_board (child_at out_el i) child infile ;;
    Ok (put_child out_el i c, log)
  else print_file_error_and_exit infile child Unexpected_element.

Definition merge_xml_drawing (out_el in_el : node) (infile : InputFile)
  (log : list warning) : result (node * list warning) :=
  s <- for_each (merge_xml_drawing_body infile) (out_el, log) (children in_el) ;;
  no_attributes infile in_el s.

(** The loop of [merge_xml_eagle] over the attribute names of [in_el]. *)
Fixpoint merge_xml_eagle_attrs (infile : InputFile) (out_el in_el : node)
  (in_attrs : list string) : result node :=
  match in_attrs with
  | [] => Ok out_el
  | attr :: in_attrs' =>
      if String.eqb attr "version" then
        let in_version := get in_el "version" in
        let out_version := get out_el "version" in
        match out_version with
        | None =>
            merge_xml_eagle_attrs infile
              (set out_el "version" (default "" in_version)) in_el in_attrs'
        | Some _ =>
            if bool_decide (in_version <> out_version) then
              print_file_error_and_exit infile in_el
                [inl ("Eagle version mismatch: " +:+ format_opt in_version
                      +:+ " != " +:+ format_opt out_version)]
            else merge_xml_eagle_attrs infile out_el in_el in_attrs'
        end
      else print_file_error_and_exit infile in_el [inl "Unexpected attributes"]
  end.

Definition merge_xml_eagle_body (infile : InputFile)
  (s : node * list warning) (child : node) : result (node * list warning) :=
  let '(out_el, log) := s in
  let t := tag child in
  if String.eqb t "drawing" then
    let '(out_el, i) := find_or_create_child out_el "drawing" in
    r <- merge_xml_drawing (child_at out_el i) child infile log ;;
    Ok (put_child out_el i r.1, r.2)
  else if String.eqb t "compatibility" then
    Ok (out_el, log ++ [(path infile, [inl "Compatibility notes ignored"])])
  else Ok (out_el, log).

Definition merge_xml_eagle (out_el in_el : node) (infile : InputFile)
  (log : list warning) : result (node * list warning) :=
  if String.eqb (tag out_el) "eagle" && String.eqb (tag in_el) "eagle" then
    out_el <- merge_xml_eagle_attrs infile out_el in_el (map fst (attrib in_el)) ;;
    for_each (merge_xml_eagle_body infile) (out_el, log) (children in_el)
  else Raise AssertionError.

(** The loop of [main] over the input files, each given with the root of
    the document parsed from it; the value is the element that [main]
    serialises, with the warnings printed on the way. *)
Fixpoint merge_all (out_el : node) (log : list warning)
  (infiles : list (InputFile * node)) : result (node * list warning) :=
  match infiles with
  | [] => Ok (out_el, log)
  | (infile, in_el) :: infiles' =>
      r <- merge_xml_eagle out_el in_el infile log ;;
      merge_all r.1 r.2 infiles'
  end.

Definition main (infiles : list (InputFile * node)) : result (node * list warning) :=
  merge_all (Element "eagle") [] infiles.

(** ** Definitions used to state the properties *)

(** The rotation about the origin, in the words of the specification. *)
Definition spec_rotate (r : Z) (p : Py.float * Py.float) : Py.float * Py.float :=
  let '(x, y) := p in
  if r =? 90 then (Py.fneg y, x)
  else if r =? 180 then (Py.fneg x, Py.fneg y)
  else if r =? 270 then (y, Py.fneg x)
  else (x, y).

(** The translation by the offsets, in the words of the specification. *)
Definition spec_translate (d p : Py.float * Py.float) : Py.float * Py.float :=
  (Py.fadd p.1 d.1, Py.fadd p.2 d.2).

(** [float(s)] for a literal that is a float. *)
Definition float_lit (s : string) : Py.float :=
  default Py.fzero (Py.float_of_str s).

(** The candidates of the name collision loop, in the order it tries them:
    the name itself, then the name with [sep] and 1, 2, ... *)
Definition suffix (sep : string) (k : nat) : string :=
  match k with
  | O => ""
  | S _ => sep +:+ Py.str_of_int (Z.of_nat k)
  end.

Definition candidate (sep name : string) (k : nat) : string :=
  name +:+ suffix sep k.

(** A name is taken when [find_child] finds a child of the tag with it. *)
Definition taken (out_el : node) (tag' name : string) : Prop :=
  is_Some (find_child out_el tag' [("name", Some name)]).

(** The section of the output with tag [t]: the child with this tag of the
    board of the drawing of the root. *)
Definition board_section (root : node) (t : string) : option node :=
  d ← find_child root "drawing" [];
  b ← find_child d "board" [];
  find_child b t [].

(** An element with no text, followed by a line feed. *)
Definition elem (t : string) (a : list (string * string)) (cs : list node) : node :=
  Node t a None (Some nl) cs.

(** An input file merged as it is: no rotation, no offsets. *)
Definition plain_input (p : string) : InputFile :=
  Build_InputFile p (float_lit "0") (float_lit "0") 0.

(** Two design rules that differ in a descendant: the second has a
    parameter, the first has none. *)
Definition rules_bare : node := elem "designrules" [("name", "default")] [].
Definition rules_param : node :=
  elem "designrules" [("name", "default")]
    [elem "param" [("name", "mdWireWire"); ("value", "8mil")] []].

(** A document with a board that holds [sections]. *)
Definition board_doc (sections : list node) : node :=
  Node "eagle" [("version", "6.3")] None None
    [elem "drawing" [] [elem "board" [] sections]].

(** Two settings with different attribute names. *)
Definition setting_font : node := elem "setting" [("alwaysvectorfont", "no")] [].
Definition setting_text : node := elem "setting" [("verticaltext", "up")] [].


(** The attributes that the walk writes. *)
Definition coordinate_keys : list string :=
  ["x"; "y"; "x1"; "y1"; "x2"; "y2"; "x3"; "y3"; "rot"].

Definition same_but_coordinates (el el' : node) : Prop :=
  tag el' = tag el /\ text el' = text el /\ tail el' = tail el /\
  forall key, key ∉ coordinate_keys -> get el' key = get el key.

(** An elements section with two elements of one name, and a signals
    section that refers to that name and to another. *)
Definition twin_elements : node :=
  elem "elements" []
    [elem "element" [("name", "R1"); ("x", "0"); ("y", "0")] [];
     elem "element" [("name", "R1"); ("x", "10"); ("y", "0")] []].

Definition refs_signals : node :=
  elem "signals" []
    [elem "signal" [("name", "GND")]
       [elem "contactref" [("element", "R1"); ("pad", "1")] [];
        elem "contactref" [("element", "C1"); ("pad", "2")] []]].

(** What a reference to the element [name] becomes under a rename map. *)
Definition renamed (m : gmap string string) (name : string) : string :=
  default name (m !! name).

(** The elements section that merging [twin_elements] alone gives. *)
Definition twin_elements_out : node :=
  Node "elements" [] None None
    [elem "element" [("name", "R1"); ("x", "0.0"); ("y", "0.0")] [];
     elem "element" [("name", "R1_1"); ("x", "10.0"); ("y", "0.0")] []].

(** The signals section that merging [refs_signals] alone gives when the
    rename map binds R1 to R1_1. *)
Definition refs_signals_out : node :=
  Node "signals" [] None None
    [elem "signal" [("name", "GND")]
       [elem "contactref" [("element", "R1_1"); ("pad", "1")] [];
        elem "contactref" [("element", "C1"); ("pad", "2")] []]].

(** What [append_xml_signals] does to a contactref [c] of the input: [c'] is
    the contactref of the output. *)
Definition reference_rewritten (m : gmap string string) (c c' : node) : Prop :=
  tag c = "contactref" ->
  tag c' = "contactref"
  /\ (forall key, key <> "element" -> get c' key = get c key)
  /\ get c' "element" = renamed m <$> get c "element"
  /\ (forall name, get c "element" = Some name -> m !! name = None -> c' = c).

(** The name attributes of the children of a section. *)
Definition names (sec : node) : list (option string) :=
  (fun c => get c "name") <$> children sec.

(** No two children of [sec] carry the same name attribute. *)
Definition distinct_names (sec : node) : Prop :=
  forall (i j : nat) (c1 c2 : node) (name : string),
    children sec !! i = Some c1 -> children sec !! j = Some c2 ->
    get c1 "name" = Some name -> get c2 "name" = Some name -> i = j.

(** The invariant of a section of the output that holds named children
    ([elements], [signals]): every child has the tag [child_tag], and their
    name attributes differ. *)
Definition named_children_ok (child_tag : string) (sec : node) : Prop :=
  Forall (fun c => tag c = child_tag) (children sec) /\ NoDup (names sec).

Definition section_ok (sec : node) : Prop :=
  (tag sec = "elements" -> named_children_ok "element" sec)
  /\ (tag sec = "signals" -> named_children_ok "signal" sec).

Definition board_ok (board : node) : Prop :=
  Forall section_ok (children board).

Definition drawing_ok (drawing : node) : Prop :=
  Forall (fun b => tag b = "board" -> board_ok b) (children drawing).

Definition root_ok (root : node) : Prop :=
  Forall (fun d => tag d = "drawing" -> drawing_ok d) (children root).

(** Two boards that both have an element R1 with a name label and a signal
    N$1 that refers to R1; the second is merged rotated by 90 degrees and
    moved by 5 mm. *)
Definition scenario_board (x y : string) : node :=
  board_doc
    [elem "elements" []
       [elem "element" [("name", "R1"); ("x", x); ("y", y)]
          [elem "attribute" [("name", "NAME"); ("x", "1.27"); ("y", "2")] []]];
     elem "signals" []
       [elem "signal" [("name", "N$1")]
          [elem "contactref" [("element", "R1"); ("pad", "1")] [];
           elem "wire" [("x1", "0"); ("y1", "0"); ("x2", "1"); ("y2", "1")] []]]].

Definition scenario_inputs : list (InputFile * node) :=
  [(plain_input "a.brd", scenario_board "0" "0");
   (Build_InputFile "b.brd" (float_lit "5") (float_lit "0") 90,
    scenario_board "10" "0")].

(** The output of merging [scenario_inputs], its drawing, its board and the
    two sections of the board. *)
Definition scenario_out : node :=
  Eval vm_compute in
    match main scenario_inputs with Ok r => r.1 | Raise _ => Element "eagle" end.

Definition scenario_drawing : node :=
  Eval vm_compute in default (Element "") (find_child scenario_out "drawing" []).

Definition scenario_out_board : node :=
  Eval vm_compute in default (Element "") (find_child scenario_drawing "board" []).

Definition scenario_elements : node :=
  Eval vm_compute in default (Element "") (find_child scenario_out_board "elements" []).

(** *** The identity merge

    [n] as the merge creates it anew: by [etree.Element] or
    [etree.SubElement], with neither text nor tail. *)
Definition bare (n : node) (cs : list node) : node :=
  Node (tag n) (attrib n) None None cs.

(** The sections of a board that the merge builds child by child. *)
Definition rebuilt_section (s : node) : node :=
  if bool_decide (tag s ∈ ["plain"; "libraries"; "elements"; "signals"; "errors"])
  then bare s (children s) else s.

Definition rebuilt_board (b : node) : node :=
  bare b (rebuilt_section <$> children b).

Definition rebuilt_drawing_child (s : node) : node :=
  if bool_decide (tag s ∈ ["settings"; "layers"]) then bare s (children s)
  else if String.eqb (tag s) "board" then rebuilt_board s
  else s.

Definition rebuilt_drawing (d : node) : node :=
  bare d (rebuilt_drawing_child <$> children d).

(** The input document as the merge of it alone rebuilds it: the same tree,
    with no text and no tail on the root, the drawing, the board and the
    sections built child by child. *)
Definition rebuilt (root : node) : node :=
  bare root (rebuilt_drawing <$> children root).

(** What [update_routing] reads on an element of each tag: the pairs of
    coordinate attributes that it transforms, whether it transforms the
    orientation [rot], and whether it visits the children. *)
Record geometry := Geometry {
  points : list (string * string);
  oriented : bool;
  nested : bool }.

Definition geometry_of (t : string) : option geometry :=
  if String.eqb t "wire" then
    Some (Geometry [("x1", "y1"); ("x2", "y2")] false false)
  else if String.eqb t "polygon" then Some (Geometry [] false true)
  else if String.eqb t "text" then Some (Geometry [("x", "y")] true false)
  else if String.eqb t "dimension" then
    Some (Geometry [("x1", "y1"); ("x2", "y2"); ("x3", "y3")] false false)
  else if String.eqb t "circle" then Some (Geometry [("x", "y")] false false)
  else if String.eqb t "rectangle" then
    Some (Geometry [("x1", "y1"); ("x2", "y2")] false false)
  else if String.eqb t "frame" then
    Some (Geometry [("x1", "y1"); ("x2", "y2")] false false)
  else if String.eqb t "hole" then Some (Geometry [("x", "y")] false false)
  else if String.eqb t "contactref" then Some (Geometry [] false false)
  else if String.eqb t "via" then Some (Geometry [("x", "y")] false false)
  else if String.eqb t "element" then Some (Geometry [("x", "y")] true true)
  else if String.eqb t "vertex" then Some (Geometry [("x", "y")] false false)
  else if String.eqb t "attribute" then Some (Geometry [("x", "y")] true false)
  else if String.eqb t "variant" then Some (Geometry [] false false)
  else None.

(** A coordinate written as Python prints a float: [s] is [str(float(s))],
    as in 0.0, 2.54 or 1e-05, and unlike 0, 2.540 or 1E-5.  The float is
    not -0.0, to which adding the offset 0 gives 0.0. *)
Definition canonical_float (s : string) : bool :=
  match Py.float_of_str s with
  | Some f =>
      String.eqb (Py.str_of_float f) s && negb (bool_decide (f = S754_zero true))
  | None => false
  end.

(** The decimal numerals of the degrees from 0 to 359. *)
Definition degrees : list string := Py.str_of_int <$> seqZ 0 360.

(** An orientation written as the transform writes one: letters, then a
    degree from 0 to 359 without leading zeros. *)
Definition canonical_rot (s : string) : bool :=
  bool_decide ((Py.span Py.is_letter s).2 ∈ degrees).

Definition point_canonical (el : node) (xy : string * string) : bool :=
  match get el xy.1, get el xy.2 with
  | Some x, Some y => canonical_float x && canonical_float y
  | _, _ => false
  end.

Definition rot_canonical (el : node) : bool :=
  match get el "rot" with
  | None => true
  | Some r => canonical_rot r
  end.

(** A geometric node of the input whose coordinates and orientations, and
    those of the nodes below it that the walk visits, are written in these
    forms; its tag is one that the walk knows. *)
Fixpoint canonical (el : node) : bool :=
  match el with
  | Node t _ _ _ cs =>
      match geometry_of t with
      | None => false
      | Some g =>
          forallb (point_canonical el) (points g)
          && (if oriented g then rot_canonical el else true)
          && (if nested g then forallb canonical cs else true)
      end
  end.

(** The children [cs] all have the tag [child_tag] and the attribute [key],
    with different values. *)
Definition keyed (key child_tag : string) (cs : list node) : bool :=
  forallb (fun c => String.eqb (tag c) child_tag
                    && bool_decide (is_Some (get c key))) cs
  && bool_decide (NoDup ((fun c => get c key) <$> cs)).

Definition no_attrib (n : node) : bool := bool_decide (attrib n = []).

(** A section of a board on which the merge of one input changes nothing. *)
Definition section_normal (s : node) : bool :=
  let t := tag s in
  if String.eqb t "plain" then
    no_attrib s && forallb canonical (children s)
  else if String.eqb t "libraries" then
    no_attrib s && keyed "name" "library" (children s)
  else if bool_decide (t ∈ ["attributes"; "variantdefs"; "classes";
                            "designrules"; "autorouter"]) then true
  else if String.eqb t "elements" then
    no_attrib s && keyed "name" "element" (children s)
    && forallb canonical (children s)
  else if String.eqb t "signals" then
    no_attrib s && keyed "name" "signal" (children s)
    && forallb (fun sig => forallb canonical (children sig)) (children s)
  else if String.eqb t "errors" then
    no_attrib s && bool_decide (children s = [])
  else false.

Definition distinct_tags (cs : list node) : bool :=
  bool_decide (NoDup (tag <$> cs)).

Definition board_normal (b : node) : bool :=
  no_attrib b && distinct_tags (children b)
  && forallb section_normal (children b).

Definition drawing_child_normal (s : node) : bool :=
  let t := tag s in
  if String.eqb t "settings" then
    no_attrib s
    && match children s with
       | [] => true
       | [c] => String.eqb (tag c) "setting" && bool_decide (children c = [])
       | _ => false
       end
  else if String.eqb t "grid" then true
  else if String.eqb t "layers" then
    no_attrib s && keyed "number" "layer" (children s)
  else if String.eqb t "board" then board_normal s
  else false.

Definition drawing_normal (d : node) : bool :=
  String.eqb (tag d) "drawing" && no_attrib d && distinct_tags (children d)
  && forallb drawing_child_normal (children d).

(** An input document on which the merge of it alone changes nothing but
    the text and tail of the containers it rebuilds. *)
Definition normal_form (root : node) : bool :=
  String.eqb (tag root) "eagle"
  && match attrib root with
     | [] => true
     | [(key, _)] => String.eqb key "version"
     | _ => false
     end
  && match children root with
     | [] => true
     | [d] => drawing_normal d
     | _ => false
     end.

(** The root without its version attribute. *)
Definition without_version (root : node) : node :=
  Node (tag root)
    (List.filter (fun kv => negb (String.eqb kv.1 "version")) (attrib root))
    (text root) (tail root) (children root).

(** [l] without its first element that satisfies [p], if it has one. *)
Fixpoint remove_first (p : node -> bool) (l : list node) : option (list node) :=
  match l with
  | [] => None
  | y :: l' => if p y then Some l' else cons y <$> remove_first p l'
  end.

(** EQUAL in the words of section 4.1 of the specification, which
    [xml_tree_compare] is to decide: the two nodes match exactly at every
    level, in the tag, in the trailing text (which both have or both lack)
    and in the attribute mapping, and their children are the same up to
    their order, each child of the one being EQUAL to a child of its own of
    the other. *)
Fixpoint structurally_equal (a b : node) {struct a} : bool :=
  match a with
  | Node ta aa _ tla ca =>
      String.eqb ta (tag b)
      && bool_decide (tla = tail b)
      && bool_decide (sorted_items aa = sorted_items (attrib b))
      && (fix pair_up (l1 l2 : list node) {struct l1} : bool :=
            match l1 with
            | [] => match l2 with [] => true | _ :: _ => false end
            | x :: l1' =>
                match remove_first (structurally_equal x) l2 with
                | Some l2' => pair_up l1' l2'
                | None => false
                end
            end) ca (children b)
  end.

(** The identity merge as the specification states it: the merge of [doc]
    alone, with no rotation and no offsets, gives an output EQUAL to [doc],
    whether or not the two roots have a version attribute.  EQUAL is read
    in the words of section 4.1 or as the result 0 of the comparator of the
    code, whichever holds. *)
Definition identity_merge_holds (p : string) (doc : node) : Prop :=
  exists out log,
    main [(plain_input p, doc)] = Ok (out, log)
    /\ (structurally_equal (without_version out) (without_version doc) = true
        \/ xml_tree_compare (without_version out) (without_version doc) = Ok 0).

(** A document as the merge builds one, its containers without text and
    trailing text, that holds [sections] in its board. *)
Definition compact_doc (sections : list node) : node :=
  Node "eagle" [("version", "6.3")] None None
    [Node "drawing" [] None None [Node "board" [] None None sections]].

(** A wire whose coordinates are written as integers, and the wire with
    the coordinates as Python prints floats. *)
Definition wire_0011 : node :=
  elem "wire" [("x1", "0"); ("y1", "0"); ("x2", "1"); ("y2", "1")] [].

Definition wire_0011_out : node :=
  elem "wire" [("x1", "0.0"); ("y1", "0.0"); ("x2", "1.0"); ("y2", "1.0")] [].

(** A board that holds the one wire, and what the merge of it alone
    gives. *)
Definition changed_doc : node :=
  compact_doc [Node "plain" [] None None [wire_0011]].

Definition changed_out : node :=
  compact_doc [Node "plain" [] None None [wire_0011_out]].

(** A board with two signals of one name, and what the merge of it alone
    gives. *)
Definition twin_signals_doc : node :=
  compact_doc
    [Node "signals" [] None None
       [elem "signal" [("name", "GND")] []; elem "signal" [("name", "GND")] []]].

Definition twin_signals_out : node :=
  compact_doc
    [Node "signals" [] None None
       [elem "signal" [("name", "GND")] []; elem "signal" [("name", "GND1")] []]].

(** A document with compatibility notes and an empty drawing, and what
    the merge of it alone gives. *)
Definition notes_doc : node :=
  Node "eagle" [("version", "6.3")] None None
    [elem "compatibility" [] []; Node "drawing" [] None None []].

Definition notes_out : node :=
  Node "eagle" [("version", "6.3")] None None [Node "drawing" [] None None []].

(** A board in normal form. *)
Definition normal_doc : node :=
  Node "eagle" [("version", "6.3")] (Some nl) None
    [elem "drawing" []
       [elem "settings" [] [setting_font];
        elem "grid" [("distance", "0.1")] [];
        elem "layers" []
          [elem "layer" [("number", "1"); ("name", "Top")] [];
           elem "layer" [("number", "16"); ("name", "Bottom")] []];
        elem "board" []
          [elem "plain" []
             [elem "wire" [("x1", "0.0"); ("y1", "0.0"); ("x2", "2.54"); ("y2", "10.0")] []];
           elem "libraries" []
             [elem "library" [("name", "rcl")]
                [elem "packages" [] [elem "package" [("name", "R0603")] []]]];
           rules_param;
           elem "elements" []
             [elem "element" [("name", "R1"); ("x", "1.27"); ("y", "-5.0"); ("rot", "R90")]
                [elem "attribute" [("name", "NAME"); ("x", "1.27"); ("y", "-3.0"); ("rot", "R0")] []];
              elem "element" [("name", "R2"); ("x", "7.5"); ("y", "0.0"); ("rot", "MR180")] []];
           elem "signals" []
             [elem "signal" [("name", "GND")]
                [elem "contactref" [("element", "R1"); ("pad", "1")] [];
                 elem "via" [("x", "3.0"); ("y", "4.5")] []];
              elem "signal" [("name", "VCC")]
                [elem "contactref" [("element", "R2"); ("pad", "2")] []]]]]].

#[global] Instance taken_dec out_el tag' name : Decision (taken out_el tag' name).
Proof. unfold taken. apply _. Defined.

(** Every node of the tree has trailing text. *)
Fixpoint tails_present (n : node) : bool :=
  match n with
  | Node _ _ _ tl cs => bool_decide (is_Some tl) && forallb tails_present cs
  end.

(** Every character of [s] satisfies [p]. *)
Fixpoint all_chars (p : ascii -> bool) (s : string) : bool :=
  match s with
  | EmptyString => true
  | String c s' => p c && all_chars p s'
  end.

(** [s] is one or more decimal digits of any script. *)
Definition decimal_digits (s : string) : Prop :=
  Py.code_points s <> []
  /\ Forall (fun c => is_Some (Py.decimal c)) (Py.code_points s).

(** [s] is [prefix] followed by [digits]: letters, then at least one
    ASCII digit. *)
Definition letters_digits (s prefix digits : string) : Prop :=
  s = prefix +:+ digits
  /\ all_chars Py.is_letter prefix = true
  /\ all_chars Py.is_digit digits = true
  /\ digits <> "".

(** The orientation that the transform gives to a stored orientation
    [prefix], [digits] under the input rotation [r]. *)
Definition rotated (prefix digits : string) (r : Z) : string :=
  prefix +:+ Py.str_of_int
    (if Py.contains "M" prefix then (Py.int_of_digits digits - r) mod 360
     else (Py.int_of_digits digits + r) mod 360).

(** * Properties *)

(** ** The geometry transform *)

Example float_lit_5 : float_lit "5" = S754_finite false 5629499534213120 (-50).
Proof. reflexivity. Qed.

(** C5: for a rotation of 0, 90, 180 or 270 degrees, [offset_and_rotate]
    rotates the point about the origin (90: (x,y) to (-y,x); 180: to
    (-x,-y); 270: to (y,-x); 0: unchanged) and then adds the offsets; the
    point (10,0) under rotation 90 and offsets (5,0) goes to (5,10), as
    floats and as the attribute values of an element. *)
Theorem offset_and_rotate_rotates_then_translates :
  (forall (x y : Py.float) (infile : InputFile),
      rotation infile = 0 \/ rotation infile = 90
      \/ rotation infile = 180 \/ rotation infile = 270 ->
      offset_and_rotate x y infile =
      Ok (spec_translate (offsetx infile, offsety infile)
            (spec_rotate (rotation infile) (x, y)))) /\
  (let infile := Build_InputFile "b.brd" (float_lit "5") (float_lit "0") 90 in
   offset_and_rotate (float_lit "10") (float_lit "0") infile
   = Ok (float_lit "5", float_lit "10") /\
   update_xml_routing_pos (Node "hole" [("x", "10"); ("y", "0")] None None [])
     "x" "y" infile
   = Ok (Node "hole" [("x", "5.0"); ("y", "10.0")] None None [])).
Proof.
  split.
  - intros x y infile Hr. unfold offset_and_rotate, spec_translate, spec_rotate.
    destruct Hr as [-> | [-> | [-> | ->]]]; reflexivity.
  - split; vm_compute; reflexivity.
Qed.

Lemma offset_and_rotate_rotates_then_translates_witness :
  let infile := Build_InputFile "b.brd" (float_lit "5") (float_lit "0") 90 in
  offset_and_rotate (float_lit "10") (float_lit "0") infile
  = Ok (spec_translate (float_lit "5", float_lit "0")
          (spec_rotate 90 (float_lit "10", float_lit "0"))).
Proof.
  intro infile.
  apply (proj1 offset_and_rotate_rotates_then_translates
           (float_lit "10") (float_lit "0") infile).
  right; left; reflexivity.
Defined.

(** ** Attributes and [find_child] *)

Lemma attr_get_set_eq key value a :
  attr_get key (attr_set key value a) = Some value.
Proof.
  induction a as [|[k v] a IH]; simpl.
  - by rewrite String.eqb_refl.
  - destruct (String.eqb k key) eqn:E; simpl; rewrite E; done.
Qed.

Lemma attr_get_set_ne key key' value a :
  key <> key' -> attr_get key' (attr_set key value a) = attr_get key' a.
Proof.
  intros Hne. induction a as [|[k v] a IH]; simpl.
  - destruct (String.eqb key key') eqn:E; [|done].
    apply String.eqb_eq in E. done.
  - destruct (String.eqb k key) eqn:E; simpl.
    + apply String.eqb_eq in E. subst k.
      destruct (String.eqb key key') eqn:E'; [|done].
      apply String.eqb_eq in E'. done.
    + by rewrite IH.
Qed.

Lemma attr_set_same key value a :
  attr_get key a = Some value -> attr_set key value a = a.
Proof.
  induction a as [|[k v] a IH]; simpl; [done|].
  destruct (String.eqb k key) eqn:E.
  - by intros [= ->].
  - intros H. by rewrite IH.
Qed.

Lemma get_set_eq el key value : get (set el key value) key = Some value.
Proof. apply attr_get_set_eq. Qed.

Lemma get_set_ne el key key' value :
  key <> key' -> get (set el key value) key' = get el key'.
Proof. apply attr_get_set_ne. Qed.

Lemma valid_name child name :
  valid child [("name", Some name)] = true <-> get child "name" = Some name.
Proof.
  unfold valid. simpl. rewrite andb_true_r, negb_true_iff, andb_false_iff.
  rewrite !bool_decide_eq_false. split.
  - intros [H | H]; [|done].
    by destruct (decide (get child "name" = Some name)).
  - intros H. left. by intros Hne.
Qed.

Lemma find_child_Some el tag' attrs child :
  find_child el tag' attrs = Some child ->
  child ∈ children el /\ tag child = tag' /\ valid child attrs = true.
Proof.
  unfold find_child, find_child_at. intros H.
  destruct (list_find _ _) as [[i c]|] eqn:E; [|done].
  injection H as ->. apply list_find_Some in E as (Hi & [Ht Hv] & _).
  split; [|done]. eapply list_elem_of_lookup_2; eauto.
Qed.

Lemma find_child_None el tag' attrs :
  find_child el tag' attrs = None <->
  forall child, child ∈ children el -> tag child = tag' -> valid child attrs <> true.
Proof.
  unfold find_child, find_child_at. split.
  - intros H child Hin Ht Hv.
    destruct (list_find_elem_of (child_matches tag' attrs) (children el) child)
      as [x Hx]; [done|by split|].
    by rewrite Hx in H.
  - intros H. destruct (list_find _ _) as [[i c]|] eqn:E; [|done].
    apply list_find_Some in E as (Hi & [Ht Hv] & _).
    exfalso. eapply H; eauto. eapply list_elem_of_lookup_2; eauto.
Qed.

Lemma taken_iff out_el tag' name :
  taken out_el tag' name <->
  exists child, child ∈ children out_el /\ tag child = tag'
                /\ get child "name" = Some name.
Proof.
  unfold taken. split.
  - intros [child H]. apply find_child_Some in H as (? & ? & ?%valid_name). eauto.
  - intros (child & Hin & Ht & Hn).
    destruct (find_child out_el tag' _) eqn:E; [done|].
    exfalso. eapply find_child_None in E; eauto. apply E. by apply valid_name.
Qed.

(** ** The name collision loop *)

Lemma pretty_N_go_nonempty (x : N) (s : string) :
  s <> "" -> pretty_N_go x s <> "".
Proof.
  revert s. induction (N.lt_wf_0 x) as [x _ IH]. intros s Hs.
  destruct (decide (x = 0%N)) as [->|Hx].
  - by rewrite pretty_N_go_0.
  - rewrite pretty_N_go_step by lia. apply IH; [|done].
    apply N.div_lt; lia.
Qed.

Lemma str_of_int_nonempty (z : Z) : 0 < z -> Py.str_of_int z <> "".
Proof.
  intros Hz. destruct z as [|p|p]; try lia.
  change (Py.str_of_int (Z.pos p)) with (pretty_N_go (N.pos p) "").
  rewrite pretty_N_go_step by lia. by apply pretty_N_go_nonempty.
Qed.

Lemma app_nonempty_r (s t : string) : t <> "" -> s +:+ t <> "".
Proof. destruct s; simpl; [done|]. intros _. discriminate. Qed.

Lemma candidate_inj sep name : Inj (=) (=) (candidate sep name).
Proof.
  intros j k H. unfold candidate, suffix in H.
  destruct j as [|j], k as [|k]; [done| | |].
  - apply (inj (String.app name)) in H. symmetry in H.
    apply app_nonempty_r in H; [done|]. apply str_of_int_nonempty. lia.
  - apply (inj (String.app name)) in H.
    apply app_nonempty_r in H; [done|]. apply str_of_int_nonempty. lia.
  - apply (inj (String.app name)), (inj (String.app sep)) in H.
    apply (inj pretty) in H. lia.
Qed.

(** More candidates are never taken than [out_el] has children. *)
Lemma taken_candidates_bound out_el tag' sep name k :
  (forall j, (j < k)%nat -> taken out_el tag' (candidate sep name j)) ->
  (k <= length (children out_el))%nat.
Proof.
  intros Htaken.
  pose (names := (fun c => get c "name") <$> children out_el).
  assert (Hsub : (Some ∘ candidate sep name) <$> seq 0 k ⊆+ names).
  { apply NoDup_submseteq.
    - apply NoDup_fmap_2; [|apply NoDup_seq].
      intros i j [=]. by apply (candidate_inj sep name).
    - intros x Hx. apply list_elem_of_fmap in Hx as (j & -> & Hj).
      apply elem_of_seq in Hj.
      destruct (proj1 (taken_iff _ _ _) (Htaken j ltac:(lia)))
        as (child & Hin & _ & Hn).
      unfold names. apply list_elem_of_fmap. exists child. by rewrite Hn. }
  apply submseteq_length in Hsub. unfold names in Hsub.
  by rewrite !length_fmap, length_seq in Hsub.
Qed.

Lemma probe_spec fuel out_el tag' sep name k :
  (forall j, (j < k)%nat -> taken out_el tag' (candidate sep name j)) ->
  (length (children out_el) <= fuel + k)%nat ->
  exists k', (k <= k')%nat /\
    probe fuel out_el tag' sep name (suffix sep k) (Z.of_nat k + 1)
    = Ok (suffix sep k') /\
    ~ taken out_el tag' (candidate sep name k') /\
    (forall j, (j < k')%nat -> taken out_el tag' (candidate sep name j)).
Proof.
  revert k. induction fuel as [|fuel IH]; intros k Hk Hlen.
  - destruct (decide (taken out_el tag' (candidate sep name k))) as [Ht|Ht].
    + exfalso. assert (S k <= length (children out_el))%nat; [|lia].
      apply (taken_candidates_bound out_el tag' sep name).
      intros j Hj. destruct (decide (j = k)) as [->|]; [done|]. apply Hk. lia.
    + exists k. split; [done|]. split; [|done].
      simpl. fold (candidate sep name k).
      destruct (find_child _ _ _) eqn:E; [|done].
      exfalso. apply Ht. unfold taken. by rewrite E.
  - destruct (decide (taken out_el tag' (candidate sep name k))) as [Ht|Ht].
    + destruct (IH (S k)) as (k' & Hle & Hp & Hfree & Hbefore).
      * intros j Hj. destruct (decide (j = k)) as [->|]; [done|]. apply Hk. lia.
      * lia.
      * exists k'. split; [lia|]. split; [|done].
        simpl. fold (candidate sep name k).
        destruct Ht as [c Hc]. rewrite Hc.
        replace (Z.of_nat k + 1) with (Z.of_nat (S k)) by lia.
        exact Hp.
    + exists k. split; [done|]. split; [|done].
      simpl. fold (candidate sep name k).
      destruct (find_child _ _ _) eqn:E; [|done].
      exfalso. apply Ht. unfold taken. by rewrite E.
Qed.

Lemma unique_name_spec out_el tag' sep name :
  exists k : nat,
    unique_name out_el tag' sep name = Ok (candidate sep name k)
    /\ ~ taken out_el tag' (candidate sep name k)
    /\ forall j, (j < k)%nat -> taken out_el tag' (candidate sep name j).
Proof.
  destruct (probe_spec (length (children out_el)) out_el tag' sep name 0)
    as (k & _ & Hp & Hfree & Hbefore); [intros; lia|lia|].
  exists k. unfold unique_name.
  change (probe _ _ _ _ _ _ _) with
    (probe (length (children out_el)) out_el tag' sep name "" 1) in Hp.
  by rewrite Hp.
Qed.

Lemma app_empty_r (s : string) : s +:+ "" = s.
Proof.
  induction s as [|c s IH]; [done|].
  change (String c s +:+ "") with (String c (s +:+ "")). by f_equal.
Qed.

Lemma candidate_0 sep name : candidate sep name 0 = name.
Proof. apply app_empty_r. Qed.

(** C7: the name collision loop tries the candidates in a fixed order, the
    name itself and then the name with 1, 2, 3, ... appended (after an
    underscore for elements, directly for signals), and settles on the first
    one that no child of the section carries: [unique_name] returns the
    candidate of the least index that is not taken, whatever the name and
    whatever the children of the section are. *)
Theorem unique_name_first_free :
  forall (out_el : node) (name : string),
    (exists k : nat,
        unique_name out_el "element" "_" name = Ok (candidate "_" name k)
        /\ ~ taken out_el "element" (candidate "_" name k)
        /\ forall j, (j < k)%nat -> taken out_el "element" (candidate "_" name j))
    /\ (exists k : nat,
        unique_name out_el "signal" "" name = Ok (candidate "" name k)
        /\ ~ taken out_el "signal" (candidate "" name k)
        /\ forall j, (j < k)%nat -> taken out_el "signal" (candidate "" name j))
    /\ candidate "_" name 0 = name
    /\ candidate "_" name 1 = name +:+ "_1"
    /\ candidate "_" name 2 = name +:+ "_2"
    /\ candidate "" name 0 = name
    /\ candidate "" name 1 = name +:+ "1"
    /\ candidate "" name 2 = name +:+ "2".
Proof.
  intros out_el name.
  split; [apply unique_name_spec|]. split; [apply unique_name_spec|].
  rewrite !candidate_0. repeat split.
Qed.

(** ** Trees *)

Lemma node_ind' (P : node -> Prop) :
  (forall t a tx tl cs, Forall P cs -> P (Node t a tx tl cs)) ->
  forall n, P n.
Proof.
  intros H. fix IH 1. intros [t a tx tl cs]. apply H.
  induction cs as [|c cs IHcs]; constructor; [apply IH|apply IHcs].
Qed.

Lemma height_child (n c : node) : c ∈ children n -> (height c < height n)%nat.
Proof.
  destruct n as [t a tx tl cs]. simpl. intros Hin.
  induction cs as [|c' cs IH]; [by apply elem_of_nil in Hin|].
  apply elem_of_cons in Hin as [->|Hin]; simpl; [lia|].
  specialize (IH Hin). lia.
Qed.

(** ** [xml_tree_compare]: the bound on the recursion is never reached *)

Lemma key_lt_raises cmp x y e : key_lt cmp x y = Raise e -> cmp x y = Raise e.
Proof. unfold key_lt. destruct (cmp x y); simpl; congruence. Qed.

Lemma extend_run_app cmp descending run prev l r :
  extend_run cmp descending run prev l = Ok r -> rev r.1 ++ r.2 = rev run ++ l.
Proof.
  revert run prev. induction l as [|x l IH]; simpl; intros run prev H.
  - by injection H as <-.
  - destruct (key_lt cmp x prev) as [lt|]; [|done]. simpl in H.
    destruct (Bool.eqb lt descending); [|by injection H as <-].
    rewrite (IH _ _ H). simpl. by rewrite <- app_assoc.
Qed.

Lemma count_run_perm cmp l r : count_run cmp l = Ok r -> r.1 ++ r.2 ≡ₚ l.
Proof.
  destruct l as [|x0 [|x1 l]]; simpl; intros H; try (by injection H as <-).
  destruct (key_lt cmp x1 x0) as [descending|]; [|done]. simpl in H.
  destruct (extend_run _ _ _ _ _) as [r'|] eqn:E; [|done]. injection H as <-.
  apply extend_run_app in E. simpl in *.
  transitivity (rev r'.1 ++ r'.2); [|by rewrite E].
  destruct descending; [|done].
  apply Permutation_app_tail, Permutation_rev.
Qed.

Lemma binarysort_perm cmp run rest l' :
  binarysort cmp run rest = Ok l' -> l' ≡ₚ run ++ rest.
Proof.
  revert run. induction rest as [|x rest IH]; simpl; intros run H.
  - injection H as <-. by rewrite app_nil_r.
  - destruct (bisect _ _ _ _ _ _) as [i|]; [|done]. simpl in H.
    rewrite (IH _ H), <- app_assoc. simpl.
    rewrite <- !Permutation_middle. by rewrite app_assoc, take_drop.
Qed.

Lemma sort_by_perm cmp l l' : sort_by cmp l = Ok l' -> l' ≡ₚ l.
Proof.
  unfold sort_by. intros H.
  destruct (count_run cmp l) as [r|] eqn:E; [|done]. simpl in H.
  by rewrite (binarysort_perm _ _ _ _ H), (count_run_perm _ _ _ E).
Qed.

(** An error of the sort is an error of a comparison of two elements of the
    list. *)
Lemma extend_run_raises cmp descending run prev l e :
  extend_run cmp descending run prev l = Raise e ->
  exists x y, x ∈ prev :: l /\ y ∈ prev :: l /\ cmp x y = Raise e.
Proof.
  revert run prev. induction l as [|x l IH]; simpl; intros run prev H; [done|].
  destruct (key_lt cmp x prev) as [lt|e'] eqn:Ek; simpl in H.
  - destruct (Bool.eqb lt descending); [|done].
    destruct (IH _ _ H) as (a & b & Ha & Hb & Hab).
    exists a, b. split_and!; [by right|by right|done].
  - injection H as <-. apply key_lt_raises in Ek.
    exists x, prev. split_and!; [set_solver|set_solver|done].
Qed.

Lemma count_run_raises cmp l e :
  count_run cmp l = Raise e -> exists x y, x ∈ l /\ y ∈ l /\ cmp x y = Raise e.
Proof.
  destruct l as [|x0 [|x1 l]]; simpl; intros H; try done.
  destruct (key_lt cmp x1 x0) as [descending|e'] eqn:Ek; simpl in H.
  - destruct (extend_run _ _ _ _ _) as [r'|e'] eqn:E; [done|]. injection H as <-.
    apply extend_run_raises in E as (a & b & Ha & Hb & Hab).
    exists a, b. split_and!; [by right|by right|done].
  - injection H as <-. apply key_lt_raises in Ek.
    exists x1, x0. split_and!; [set_solver|set_solver|done].
Qed.

Lemma bisect_raises cmp steps pivot run l r e :
  bisect cmp steps pivot run l r = Raise e ->
  exists y, y ∈ run /\ cmp pivot y = Raise e.
Proof.
  revert l r. induction steps as [|steps IH]; simpl; intros l r H; [done|].
  destruct (run !! _) as [y|] eqn:Ey; [|done].
  destruct (key_lt cmp pivot y) as [lt|e'] eqn:Ek; simpl in H.
  - destruct lt.
    + destruct (_ <? _)%nat; [by eapply IH|done].
    + destruct (_ <? _)%nat; [by eapply IH|done].
  - injection H as <-. apply key_lt_raises in Ek.
    exists y. split; [by eapply list_elem_of_lookup_2|done].
Qed.

Lemma binarysort_raises cmp run rest e :
  binarysort cmp run rest = Raise e ->
  exists x y, x ∈ run ++ rest /\ y ∈ run ++ rest /\ cmp x y = Raise e.
Proof.
  revert run. induction rest as [|x rest IH]; simpl; intros run H; [done|].
  destruct (bisect _ _ _ _ _ _) as [i|e'] eqn:Eb; simpl in H.
  - destruct (IH _ H) as (a & b & Ha & Hb & Hab).
    assert (Hsub : forall z, z ∈ (take i run ++ x :: drop i run) ++ rest ->
                             z ∈ run ++ x :: rest).
    { intros z. rewrite <- app_assoc. simpl.
      rewrite <- !Permutation_middle, app_assoc, take_drop. done. }
    exists a, b. split_and!; [by apply Hsub|by apply Hsub|done].
  - injection H as <-. apply bisect_raises in Eb as (y & Hy & Hxy).
    exists x, y. split_and!; [set_solver|set_solver|done].
Qed.

Lemma sort_by_raises cmp l e :
  sort_by cmp l = Raise e -> exists x y, x ∈ l /\ y ∈ l /\ cmp x y = Raise e.
Proof.
  unfold sort_by. intros H.
  destruct (count_run cmp l) as [r|e'] eqn:E; simpl in H.
  - apply binarysort_raises in H as (a & b & Ha & Hb & Hab).
    apply count_run_perm in E. rewrite E in Ha, Hb. by exists a, b.
  - injection H as <-. by apply count_run_raises.
Qed.

Lemma compare_zip_raises (bad : error -> Prop) cmp l1 l2 e :
  (forall x y e, x ∈ l1 -> y ∈ l2 -> cmp x y = Raise e -> ~ bad e) ->
  compare_zip cmp l1 l2 = Raise e -> ~ bad e.
Proof.
  revert l2. induction l1 as [|x l1 IH]; intros [|y l2] H Hr; simpl in Hr;
    try done.
  destruct (cmp x y) as [c|e'] eqn:Ec.
  - destruct (c <? 0); [done|]. destruct (0 <? c); [done|].
    apply (IH l2); [|done]. intros; eapply H; eauto; by right.
  - injection Hr as <-. apply (H x y); [by left|by left|done].
Qed.

(** Every node of the tree has trailing text. *)
Lemma tails_present_child n c :
  tails_present n = true -> c ∈ children n -> tails_present c = true.
Proof.
  destruct n as [t a tx tl cs]. simpl. intros [_ H]%andb_true_iff Hc.
  rewrite forallb_forall in H. apply H. by apply list_elem_of_In.
Qed.

Lemma tails_present_tail n : tails_present n = true -> is_Some (tail n).
Proof.
  destruct n as [t a tx [tl|] cs]; simpl; [by eexists|done].
Qed.

(** With enough fuel for the two trees, the comparator does not run out of
    it, and it raises [TypeError] only on trees in which some node has no
    trailing text. *)
Lemma xml_tree_compare_fuel_raises (bad : error -> Prop) fuel a b e :
  (height a <= fuel)%nat -> (height b <= fuel)%nat ->
  (bad TypeError -> tails_present a = true /\ tails_present b = true) ->
  xml_tree_compare_fuel fuel a b = Raise e -> ~ bad e.
Proof.
  revert a b e. induction fuel as [|fuel IH]; intros a b e Ha Hb Hbad Hr.
  - destruct a; simpl in Ha; lia.
  - assert (Hc : forall x y e, x ∈ children a ++ children b ->
                   y ∈ children a ++ children b ->
                   xml_tree_compare_fuel fuel x y = Raise e -> ~ bad e).
    { intros x y e0 Hx Hy. apply IH.
      - apply elem_of_app in Hx as [Hx|Hx]; apply height_child in Hx; lia.
      - apply elem_of_app in Hy as [Hy|Hy]; apply height_child in Hy; lia.
      - intros [Hta Htb]%Hbad.
        split; [apply elem_of_app in Hx as [Hx|Hx]|apply elem_of_app in Hy as [Hy|Hy]];
          eauto using tails_present_child. }
    simpl in Hr.
    destruct (Py.str_lt (tag a) (tag b)); [done|].
    destruct (Py.str_lt (tag b) (tag a)); [done|].
    destruct (tail a) as [ta|] eqn:Eta; [destruct (tail b) as [tb|] eqn:Etb|].
    + simpl in Hr.
      destruct (Py.str_lt ta tb); [done|]. destruct (Py.str_lt tb ta); [done|].
      destruct (items_lt _ _); [done|]. destruct (items_lt _ _); [done|].
      destruct (sort_by _ (children a)) as [la|e'] eqn:Ea.
      * destruct (sort_by _ (children b)) as [lb|e'] eqn:Eb.
        -- eapply compare_zip_raises; [|exact Hr]. intros x y e0 Hx Hy.
           apply Hc.
           ++ rewrite (sort_by_perm _ _ _ Ea) in Hx. set_solver.
           ++ rewrite (sort_by_perm _ _ _ Eb) in Hy. set_solver.
        -- injection Hr as <-.
           apply sort_by_raises in Eb as (x & y & Hx & Hy & Hxy).
           eapply Hc; [| |exact Hxy]; set_solver.
      * injection Hr as <-.
        apply sort_by_raises in Ea as (x & y & Hx & Hy & Hxy).
        eapply Hc; [| |exact Hxy]; set_solver.
    + simpl in Hr. injection Hr as <-.
      intros [_ Htb]%Hbad.
      apply tails_present_tail in Htb as [? ?]. congruence.
    + simpl in Hr. injection Hr as <-.
      intros [Hta _]%Hbad.
      apply tails_present_tail in Hta as [? ?]. congruence.
Qed.

Lemma xml_tree_compare_fuel_enough fuel a b :
  (height a <= fuel)%nat -> (height b <= fuel)%nat ->
  xml_tree_compare_fuel fuel a b <> Raise OutOfFuel.
Proof.
  intros Ha Hb Hr.
  by apply (xml_tree_compare_fuel_raises (fun e => e = OutOfFuel) _ _ _ _ Ha Hb)
    in Hr.
Qed.

(** The bound that [xml_tree_compare] gives the recursion is never
    reached. *)
Lemma xml_tree_compare_terminates a b : xml_tree_compare a b <> Raise OutOfFuel.
Proof. apply xml_tree_compare_fuel_enough; lia. Qed.

(** On trees whose nodes all have trailing text the comparator returns. *)
Lemma xml_tree_compare_fuel_total fuel a b :
  (height a <= fuel)%nat -> (height b <= fuel)%nat ->
  tails_present a = true -> tails_present b = true ->
  exists z, xml_tree_compare_fuel fuel a b = Ok z.
Proof.
  intros Ha Hb Hta Htb.
  destruct (xml_tree_compare_fuel fuel a b) as [z|e] eqn:E; [by exists z|].
  exfalso.
  by apply (xml_tree_compare_fuel_raises (fun _ => True) _ _ _ _ Ha Hb) in E.
Qed.

Lemma str_lt_irrefl s : Py.str_lt s s = false.
Proof.
  unfold Py.str_lt, String.ltb.
  pose proof (String.compare_antisym s s) as H.
  by destruct (String.compare s s).
Qed.

Lemma items_lt_irrefl l : items_lt l l = false.
Proof.
  induction l as [|x l IH]; simpl; [done|].
  by rewrite bool_decide_eq_true_2.
Qed.

Lemma sort_by_total cmp l :
  (forall x y, x ∈ l -> y ∈ l -> exists z, cmp x y = Ok z) ->
  exists l', sort_by cmp l = Ok l'.
Proof.
  intros H. destruct (sort_by cmp l) as [l'|e] eqn:E; [by exists l'|].
  exfalso. apply sort_by_raises in E as (x & y & Hx & Hy & Hr).
  destruct (H x y Hx Hy) as [z Hz]. congruence.
Qed.

(** A tree whose nodes all have trailing text compares as 0 with itself. *)
Lemma xml_tree_compare_fuel_refl fuel a :
  (height a <= fuel)%nat -> tails_present a = true ->
  xml_tree_compare_fuel fuel a a = Ok 0.
Proof.
  revert a. induction fuel as [|fuel IH]; intros a Ha Hta.
  - destruct a; simpl in Ha; lia.
  - simpl. rewrite str_lt_irrefl.
    destruct (tails_present_tail a Hta) as [ta ->]. simpl.
    rewrite str_lt_irrefl, items_lt_irrefl.
    destruct (sort_by_total (xml_tree_compare_fuel fuel) (children a))
      as [l Hl].
    { intros x y Hx Hy.
      apply xml_tree_compare_fuel_total;
        eauto using tails_present_child;
        [apply height_child in Hx|apply height_child in Hy]; lia. }
    rewrite Hl. apply sort_by_perm in Hl.
    assert (Hall : forall c, c ∈ l -> xml_tree_compare_fuel fuel c c = Ok 0).
    { intros c Hc. rewrite Hl in Hc. apply IH.
      - apply height_child in Hc. lia.
      - by eapply tails_present_child. }
    clear Hl. induction l as [|c l IHl]; simpl; [done|].
    rewrite Hall by (by left). simpl. apply IHl. intros; apply Hall. by right.
Qed.

Lemma xml_tree_compare_refl a :
  tails_present a = true -> xml_tree_compare a a = Ok 0.
Proof. intros. apply xml_tree_compare_fuel_refl; [lia|done]. Qed.

(** A later occurrence of a section that is the same tree as the first one
    is accepted, and the output stays as it is, when every node of the tree
    has trailing text. *)
Lemma sync_child_error_identical el tag' child infile err :
  find_child el tag' [] = Some child -> tails_present child = true ->
  sync_child_error el tag' child infile err = Ok el.
Proof.
  intros Hf Ht. unfold sync_child_error.
  by rewrite Hf, xml_tree_compare_refl.
Qed.

(** The first three keys of the comparator: the tag, then the trailing
    text, then the sorted attributes. *)
Lemma xml_tree_compare_by_tag a b :
  Py.str_lt (tag a) (tag b) = true -> xml_tree_compare a b = Ok (-1).
Proof.
  intros H. unfold xml_tree_compare.
  destruct (Nat.max (height a) (height b)) eqn:E;
    [destruct a; simpl in E; lia|].
  simpl. by rewrite H.
Qed.

Lemma xml_tree_compare_by_tail a b ta tb :
  tag a = tag b -> tail a = Some ta -> tail b = Some tb ->
  Py.str_lt ta tb = true -> xml_tree_compare a b = Ok (-1).
Proof.
  intros Ht Ha Hb H. unfold xml_tree_compare.
  destruct (Nat.max (height a) (height b)) eqn:E;
    [destruct a; simpl in E; lia|].
  simpl. rewrite Ht, str_lt_irrefl, Ha, Hb. simpl. by rewrite H.
Qed.

Lemma xml_tree_compare_by_attrib a b t :
  tag a = tag b -> tail a = Some t -> tail b = Some t ->
  items_lt (sorted_items (attrib a)) (sorted_items (attrib b)) = true ->
  xml_tree_compare a b = Ok (-1).
Proof.
  intros Ht Ha Hb H. unfold xml_tree_compare.
  destruct (Nat.max (height a) (height b)) eqn:E;
    [destruct a; simpl in E; lia|].
  simpl. rewrite Ht, str_lt_irrefl, Ha, Hb. simpl.
  by rewrite str_lt_irrefl, H.
Qed.


(** ** The comparator on children of different number *)

(** C2: [xml_tree_compare] does not order a node whose sorted children are a
    proper prefix of the other's before it, and its result 0 does not mean
    that the trees match: design rules without children and design rules
    with one parameter compare as 0, in both directions, because [zip] ends
    the loop over the children with the shorter list.  Two nodes without
    trailing text are not compared at all: the comparison of their tails
    raises [TypeError]. *)
Theorem xml_tree_compare_stops_at_shorter_children :
  xml_tree_compare rules_bare rules_param = Ok 0
  /\ xml_tree_compare rules_param rules_bare = Ok 0
  /\ children rules_bare = []
  /\ children rules_param = [elem "param" [("name", "mdWireWire"); ("value", "8mil")] []]
  /\ xml_tree_compare (Element "a") (Element "a") = Raise TypeError.
Proof. repeat split. Qed.

(** C3: two inputs whose design rules differ in a descendant merge without
    an error and without a warning: the output keeps the rules of the first
    input, which have no parameter, though the second input's rules have
    one. *)
Theorem differing_designrules_merge_silently :
  exists out : node,
    main [(plain_input "a.brd", board_doc [rules_bare]);
          (plain_input "b.brd", board_doc [rules_param])] = Ok (out, [])
    /\ board_section out "designrules" = Some rules_bare
    /\ rules_bare <> rules_param.
Proof.
  eexists. split; [vm_compute; reflexivity|]. split; [reflexivity|discriminate].
Qed.

(** C4: a setting whose attribute names no setting of the output has is not
    appended when the output already has a setting: [find_child] is given
    every attribute name with the value [None], which no child fails, so the
    first setting of the output is found, compared, and a warning printed;
    the output keeps one setting. *)
Theorem merge_xml_settings_keeps_first_setting_only :
  merge_xml_settings (Element "settings")
    (elem "settings" [] [setting_font; setting_text]) (plain_input "a.brd") []
  = Ok (Node "settings" [] None None [setting_font],
        [("a.brd", [inl "Incompatible settings "; inl nl; inr setting_font;
                    inl nl; inr setting_text])])
  /\ find_child (Node "settings" [] None None [setting_font]) "setting"
       [("verticaltext", None)] = Some setting_font
  /\ get setting_font "verticaltext" = None.
Proof. repeat split. Qed.

(** C6: a orientation value that is letters, digits and then a line feed
    is not of the form letters, digits, yet it is no error: the end anchor
    of the pattern matches before the final line feed, and the value is
    rewritten without it. *)
Theorem update_xml_routing_rot_accepts_final_line_feed :
  update_xml_routing_rot (elem "text" [("rot", "R90" +:+ nl)] []) "rot"
    (plain_input "a.brd")
  = Ok (elem "text" [("rot", "R90")] []).
Proof. reflexivity. Qed.

(** ** Orientations *)

Lemma span_app p s :
  let '(a, b) := Py.span p s in s = a +:+ b /\ all_chars p a = true.
Proof.
  induction s as [|c s IH]; simpl; [done|].
  destruct (p c) eqn:Ec; [|done].
  destruct (Py.span p s) as [a b]. destruct IH as [-> Ha].
  split; [done|]. simpl. by rewrite Ec.
Qed.

Lemma span_all p s t :
  all_chars p s = true ->
  match t with EmptyString => True | String c _ => p c = false end ->
  Py.span p (s +:+ t) = (s, t).
Proof.
  intros Hs Ht. induction s as [|c s IH]; simpl.
  - destruct t as [|c t]; [done|]. simpl. by rewrite Ht.
  - simpl in Hs. apply andb_true_iff in Hs as [Hc Hs].
    change (String c s +:+ t) with (String c (s +:+ t)). simpl.
    by rewrite Hc, IH.
Qed.

Lemma digit_not_letter c : Py.is_digit c = true -> Py.is_letter c = false.
Proof.
  unfold Py.is_digit, Py.is_letter.
  intros [H1 H2]%andb_true_iff.
  apply Nat.leb_le in H1, H2.
  apply orb_false_iff. split; apply andb_false_iff; left; apply Nat.leb_gt; lia.
Qed.

(** The code points of an ASCII string are its bytes. *)
Lemma code_points_digits s :
  all_chars Py.is_digit s = true ->
  Py.code_points s = N_of_ascii <$> list_ascii_of_string s.
Proof.
  unfold Py.code_points. induction s as [|c s IH]; [done|].
  cbn [all_chars]. intros [Hc Hs]%andb_true_iff.
  cbn [Py.code_points_from list_ascii_of_string fmap list_fmap].
  assert ((N_of_ascii c <? 128)%N = true) as ->.
  { unfold Py.is_digit in Hc. apply andb_true_iff in Hc as [_ Hc].
    apply Nat.leb_le in Hc. apply N.ltb_lt.
    rewrite <- (N2Nat.id (N_of_ascii c)).
    change (N.to_nat (N_of_ascii c)) with (nat_of_ascii c). lia. }
  by rewrite IH.
Qed.

Lemma decimal_digit c :
  Py.is_digit c = true -> Py.decimal (N_of_ascii c) = Some (Py.digit_val c).
Proof.
  destruct c as [[] [] [] [] [] [] [] []]; intros H; try discriminate H;
    reflexivity.
Qed.

Lemma code_points_length s :
  all_chars Py.is_digit s = true -> length (Py.code_points s) = String.length s.
Proof.
  intros H. rewrite code_points_digits by done. rewrite length_fmap.
  clear H. induction s as [|c s IH]; simpl; [done|]. by rewrite IH.
Qed.

(** [int] on a string of at most 4300 ASCII digits. *)
Lemma int_of_str_digits s :
  all_chars Py.is_digit s = true -> (String.length s <= 4300)%nat ->
  Py.int_of_str s = Some (Py.int_of_digits s).
Proof.
  intros Hs Hl. unfold Py.int_of_str, Py.int_of_digits.
  rewrite code_points_length by done.
  destruct (4300 <? String.length s)%nat eqn:E; [apply Nat.ltb_lt in E; lia|].
  f_equal. rewrite code_points_digits by done. clear Hl E.
  assert (H : forall acc,
    fold_left (fun acc c => 10 * acc + default 0 (Py.decimal c))
      (N_of_ascii <$> list_ascii_of_string s) acc
    = fold_left (fun acc c => 10 * acc + Py.digit_val c)
        (list_ascii_of_string s) acc); [|apply H].
  induction s as [|c s IH]; intros acc; [done|].
  cbn [all_chars] in Hs. apply andb_true_iff in Hs as [Hc Hs].
  cbn [list_ascii_of_string fmap list_fmap fold_left].
  rewrite decimal_digit by done. by apply IH.
Qed.

Lemma without_final_line_feed_digits s :
  all_chars Py.is_digit s = true -> without_final_line_feed s = s.
Proof.
  induction s as [|c s IH]; [done|].
  cbn [all_chars without_final_line_feed]. intros [Hc Hs]%andb_true_iff.
  rewrite IH by done.
  destruct (Ascii.eqb c "010") eqn:E; [|done].
  apply Ascii.eqb_eq in E as ->. done.
Qed.

(** The pattern matches the strings that are letters and then digits. *)
Lemma match_rot_letters_digits s prefix digits :
  letters_digits s prefix digits -> match_rot s = Some (prefix, digits).
Proof.
  intros (-> & Hp & Hd & Hne). unfold match_rot.
  rewrite span_all; [|done|].
  - rewrite without_final_line_feed_digits, code_points_digits by done.
    destruct digits as [|c d]; [done|].
    cbn [list_ascii_of_string fmap list_fmap].
    assert (forallb (fun c0 => bool_decide (is_Some (Py.decimal c0)))
              (N_of_ascii c :: (N_of_ascii <$> list_ascii_of_string d)) = true)
      as ->; [|done].
    change (N_of_ascii c :: (N_of_ascii <$> list_ascii_of_string d))
      with (N_of_ascii <$> list_ascii_of_string (String c d)).
    clear Hne. induction (String c d) as [|x r IH]; [done|].
    cbn [all_chars] in Hd. apply andb_true_iff in Hd as [Hx Hr].
    cbn [list_ascii_of_string fmap list_fmap forallb].
    rewrite decimal_digit by done. by rewrite IH.
  - destruct digits as [|c d]; [done|]. simpl in Hd.
    apply andb_true_iff in Hd as [Hc _]. by apply digit_not_letter.
Qed.

Lemma without_final_line_feed_spec r :
  r = without_final_line_feed r \/ r = without_final_line_feed r +:+ nl.
Proof.
  induction r as [|c r IH]; [by left|].
  cbn [without_final_line_feed].
  destruct (Ascii.eqb c "010" && String.eqb r "") eqn:E.
  - apply andb_true_iff in E as [->%Ascii.eqb_eq ->%String.eqb_eq]. by right.
  - change (String c ?x +:+ ?t) with (String c (x +:+ t)).
    destruct IH as [IH|IH]; [left|right]; by rewrite <- IH.
Qed.

(** What the pattern matches is letters and then decimal digits, or that
    with a line feed after it. *)
Lemma match_rot_Some s prefix digits :
  match_rot s = Some (prefix, digits) ->
  all_chars Py.is_letter prefix = true /\ decimal_digits digits
  /\ (s = prefix +:+ digits \/ s = prefix +:+ digits +:+ nl).
Proof.
  unfold match_rot. intros H.
  pose proof (span_app Py.is_letter s) as Hs.
  destruct (Py.span Py.is_letter s) as [a b]. destruct Hs as [-> Ha].
  destruct (Py.code_points (without_final_line_feed b)) as [|c cs] eqn:Ec;
    [done|].
  destruct (forallb _ _) eqn:Ef; [|done]. injection H as <- <-.
  split_and!; [done| |].
  - unfold decimal_digits. rewrite Ec. split; [done|].
    apply Forall_forall. intros x Hx. rewrite forallb_forall in Ef.
    apply list_elem_of_In, Ef in Hx. by apply bool_decide_eq_true in Hx.
  - destruct (without_final_line_feed_spec b) as [Hb|Hb]; [left|right];
      by rewrite <- Hb.
Qed.

(** The orientation attribute under the transform, for a value that is
    letters followed by at most 4300 digits, and for an absent or empty
    one, which stands for R0: the degree is (stored + r) mod 360, or
    (stored - r) mod 360 when the prefix has an M; the attribute is written
    unless it was absent and the result is R0. *)
Lemma update_xml_routing_rot_rotates el rotattr infile value prefix digits :
  (get el rotattr = Some value /\ value <> "" \/
   (get el rotattr = None \/ get el rotattr = Some "") /\ value = "R0") ->
  letters_digits value prefix digits -> (String.length digits <= 4300)%nat ->
  update_xml_routing_rot el rotattr infile
  = if bool_decide (get el rotattr = None)
       && String.eqb (rotated prefix digits (rotation infile)) "R0"
    then Ok el
    else Ok (set el rotattr (rotated prefix digits (rotation infile))).
Proof.
  intros Hv Hld Hlen. unfold update_xml_routing_rot, rotated.
  assert ((match get el rotattr with
           | None => "R0"
           | Some r => if String.eqb r "" then "R0" else r
           end) = value) as ->.
  { destruct Hv as [[-> Hne]|[[->| ->] ->]]; try done.
    destruct (String.eqb value "") eqn:E; [|done].
    by apply String.eqb_eq in E. }
  rewrite (match_rot_letters_digits _ _ _ Hld).
  destruct Hld as (_ & _ & Hd & _).
  rewrite int_of_str_digits by done. unfold or_raise. cbv beta iota.
  by destruct (Py.contains "M" prefix).
Qed.

(** More than 4300 digits are an error of [int], which nothing catches. *)
Lemma update_xml_routing_rot_too_long el rotattr infile value prefix digits :
  get el rotattr = Some value -> letters_digits value prefix digits ->
  (4300 < String.length digits)%nat ->
  update_xml_routing_rot el rotattr infile = Raise ValueError.
Proof.
  intros Hg Hld Hlen. unfold update_xml_routing_rot. rewrite Hg.
  assert (String.eqb value "" = false) as ->.
  { apply String.eqb_neq. destruct Hld as (-> & _ & _ & Hne).
    by apply app_nonempty_r. }
  rewrite (match_rot_letters_digits _ _ _ Hld).
  destruct Hld as (_ & _ & Hd & _).
  unfold Py.int_of_str. rewrite code_points_length by done.
  by apply Nat.ltb_lt in Hlen as ->.
Qed.

(** An absent orientation stays absent exactly when the input rotation is a
    multiple of 360 degrees. *)
Lemma update_xml_routing_rot_absent el rotattr infile :
  get el rotattr = None ->
  update_xml_routing_rot el rotattr infile
  = if rotation infile mod 360 =? 0 then Ok el
    else Ok (set el rotattr ("R" +:+ Py.str_of_int (rotation infile mod 360))).
Proof.
  intros Hg.
  rewrite (update_xml_routing_rot_rotates el rotattr infile "R0" "R" "0");
    [|by right; split; [left|]|by split_and!|simpl; lia].
  rewrite Hg. unfold rotated. simpl.
  change (Py.int_of_digits "0" + rotation infile) with (0 + rotation infile).
  rewrite Z.add_0_l.
  destruct (rotation infile mod 360 =? 0) eqn:E.
  - apply Z.eqb_eq in E. by rewrite E.
  - destruct (String.eqb _ "0") eqn:E'; [|done].
    apply String.eqb_eq in E'.
    change (pretty (rotation infile mod 360) = pretty 0) in E'.
    apply (inj pretty) in E'. apply Z.eqb_neq in E. done.
Qed.

(** A present, non-empty value that the pattern does not match stops the
    run with a file error. *)
Lemma update_xml_routing_rot_rejects el rotattr infile value :
  get el rotattr = Some value -> value <> "" -> match_rot value = None ->
  update_xml_routing_rot el rotattr infile
  = print_file_error_and_exit infile el
      [inl ("Unsupported rotation attribute " +:+ value)].
Proof.
  intros Hg Hne Hm. unfold update_xml_routing_rot. rewrite Hg.
  destruct (String.eqb value "") eqn:E; [by apply String.eqb_eq in E|].
  by rewrite Hm.
Qed.

(** ** What the geometry walk leaves alone *)

(** Case analysis on a call that may stop the run, in a hypothesis that the
    caller returned. *)
Ltac ok_inv H :=
  repeat match type of H with
  | match ?e with Ok _ => _ | Raise _ => _ end = Ok _ =>
      let E := fresh "E" in destruct e eqn:E; [|discriminate H]
  | (if ?b then _ else _) = Ok _ =>
      let E := fresh "E" in destruct b eqn:E; try discriminate H
  | match ?e with Some _ => _ | None => _ end = Ok _ =>
      let E := fresh "E" in destruct e eqn:E; try discriminate H
  | Ok _ = Ok _ => injection H as H
  | print_file_error_and_exit _ _ _ = Ok _ => discriminate H
  | Raise _ = Ok _ => discriminate H
  end.

Lemma update_xml_routing_pos_keeps el xattr yattr infile el' :
  update_xml_routing_pos el xattr yattr infile = Ok el' ->
  tag el' = tag el /\ children el' = children el /\
  text el' = text el /\ tail el' = tail el /\
  forall key, key <> xattr -> key <> yattr -> get el' key = get el key.
Proof.
  unfold update_xml_routing_pos. intros H.
  destruct (get el xattr); [|discriminate]. destruct (get el yattr); [|discriminate].
  ok_inv H. subst el'. repeat split.
  intros key Hx Hy. rewrite !get_set_ne; done.
Qed.

Lemma update_xml_routing_rot_keeps el rotattr infile el' :
  update_xml_routing_rot el rotattr infile = Ok el' ->
  tag el' = tag el /\ children el' = children el /\
  text el' = text el /\ tail el' = tail el /\
  forall key, key <> rotattr -> get el' key = get el key.
Proof.
  unfold update_xml_routing_rot. intros H.
  destruct (match_rot _) as [[prefix digits]|]; [|discriminate].
  destruct (Py.int_of_str digits) as [introt|]; [|discriminate].
  unfold or_raise in H. cbv beta iota in H.
  destruct (_ && _); injection H as <-; repeat split.
  intros key Hk. by rewrite get_set_ne.
Qed.

Lemma same_but_coordinates_refl el : same_but_coordinates el el.
Proof. by repeat split. Qed.

Lemma same_but_coordinates_trans el1 el2 el3 :
  same_but_coordinates el1 el2 -> same_but_coordinates el2 el3 ->
  same_but_coordinates el1 el3.
Proof.
  intros (Ha & Hb & Hc & Hd) (Ha' & Hb' & Hc' & Hd'). repeat split; try congruence.
  intros key Hk. rewrite Hd', Hd; done.
Qed.

Lemma pos_same el xattr yattr infile el' :
  xattr ∈ coordinate_keys -> yattr ∈ coordinate_keys ->
  update_xml_routing_pos el xattr yattr infile = Ok el' ->
  same_but_coordinates el el' /\ children el' = children el.
Proof.
  intros Hx Hy H. apply update_xml_routing_pos_keeps in H as (? & ? & ? & ? & Hk).
  repeat split; try done. intros key Hkey. apply Hk; intros ->; done.
Qed.

Lemma rot_same el infile el' :
  update_xml_routing_rot el "rot" infile = Ok el' ->
  same_but_coordinates el el' /\ children el' = children el.
Proof.
  intros H. apply update_xml_routing_rot_keeps in H as (? & ? & ? & ? & Hk).
  repeat split; try done. intros key Hkey. apply Hk. intros ->.
  apply Hkey. unfold coordinate_keys. set_solver.
Qed.

Lemma with_children_same el el' cs :
  same_but_coordinates el el' -> same_but_coordinates el (with_children el' cs).
Proof. intros (? & ? & ? & ?). by repeat split. Qed.

Lemma update_routing_same infile el el' :
  update_routing infile el = Ok el' -> same_but_coordinates el el'.
Proof.
  destruct el as [t a tx tl cs]. simpl. intros H.
  repeat match type of H with
  | (if ?b then _ else _) = Ok _ => destruct b
  end;
  ok_inv H; subst;
  repeat match goal with
  | E : update_xml_routing_pos _ _ _ _ = Ok _ |- _ =>
      apply pos_same in E as [? ?];
      [|unfold coordinate_keys; set_solver|unfold coordinate_keys; set_solver]
  | E : update_xml_routing_rot _ _ _ = Ok _ |- _ => apply rot_same in E as [? ?]
  end;
  try apply with_children_same;
  eauto using same_but_coordinates_refl, same_but_coordinates_trans.
Qed.

Lemma update_routing_contactref infile el :
  tag el = "contactref" -> update_routing infile el = Ok el.
Proof. destruct el as [t a tx tl cs]. simpl. by intros ->. Qed.

Lemma update_routing_name infile el el' :
  update_routing infile el = Ok el' -> get el' "name" = get el "name".
Proof.
  intros (_ & _ & _ & H)%update_routing_same. apply H.
  unfold coordinate_keys. set_solver.
Qed.

Lemma update_routing_tag infile el el' :
  update_routing infile el = Ok el' -> tag el' = tag el.
Proof. by intros (? & _)%update_routing_same. Qed.

(** ** Loops *)

Lemma for_each_app {S} (body : S -> node -> result S) (s : S) (l1 l2 : list node) :
  for_each body s (l1 ++ l2)
  = (s' <- for_each body s l1 ;; for_each body s' l2).
Proof.
  revert s. induction l1 as [|x l1 IH]; intros s; simpl; [done|].
  destruct (body s x); [apply IH|done].
Qed.

Lemma for_each_cons {S} (body : S -> node -> result S) (s : S) x (l : list node) :
  for_each body s (x :: l) = (s' <- body s x ;; for_each body s' l).
Proof. done. Qed.

Lemma for_each_nil {S} (body : S -> node -> result S) (s : S) :
  for_each body s [] = Ok s.
Proof. done. Qed.

(** A property of the state that every turn of the loop keeps holds when
    the loop ends. *)
Lemma for_each_invariant {S} (P : S -> Prop) (body : S -> node -> result S)
  (s s' : S) (l : list node) :
  (forall s c s', c ∈ l -> P s -> body s c = Ok s' -> P s') ->
  P s -> for_each body s l = Ok s' -> P s'.
Proof.
  revert s. induction l as [|x l IH]; intros s Hbody Hs H; simpl in H.
  - by injection H as <-.
  - destruct (body s x) as [s1|] eqn:E; [|done].
    apply (IH s1); [|by eapply Hbody; [left| |]|done].
    intros ? c ? Hc. apply Hbody. by right.
Qed.

Lemma no_attributes_ok {A} infile in_el (s s' : A) :
  no_attributes infile in_el s = Ok s' -> s' = s /\ attrib in_el = [].
Proof.
  unfold no_attributes. destruct (attrib in_el); [|done]. by intros [= <-].
Qed.

(** ** Names in a section *)

Lemma taken_append out_el new tag' name :
  taken out_el tag' name -> taken (append out_el new) tag' name.
Proof.
  rewrite !taken_iff. intros (c & Hc & ?). exists c. split; [|done].
  simpl. set_solver.
Qed.

Lemma taken_append_new out_el new tag' name :
  tag new = tag' -> get new "name" = Some name ->
  taken (append out_el new) tag' name.
Proof.
  intros Ht Hn. apply taken_iff. exists new. split; [|done]. simpl. set_solver.
Qed.

Lemma override_name_label_keeps el old_name :
  tag (override_name_label el old_name) = tag el
  /\ attrib (override_name_label el old_name) = attrib el.
Proof.
  unfold override_name_label. destruct (bool_decide _); [done|].
  by destruct (find_child_at _ _ _) as [[i c]|].
Qed.

(** One turn of the loop of [append_xml_elements]. *)
Lemma append_xml_elements_body_spec infile out_el m child out' m' :
  append_xml_elements_body infile (out_el, m) child = Ok (out', m') ->
  exists prev name new,
    tag child = "element" /\ get child "name" = Some prev
    /\ out' = append out_el new /\ tag new = "element"
    /\ get new "name" = Some name
    /\ ~ taken out_el "element" name
    /\ (taken out_el "element" prev <-> name <> prev)
    /\ ((name = prev /\ m' = m) \/ (name <> prev /\ m' = <[prev := name]> m)).
Proof.
  unfold append_xml_elements_body. intros H.
  destruct (String.eqb (tag child) "element") eqn:Et; [|done].
  apply String.eqb_eq in Et.
  destruct (update_routing infile (deepcopy child)) as [r|] eqn:Er; [|done].
  unfold deepcopy in Er.
  pose proof (update_routing_name _ _ _ Er) as Hname.
  pose proof (update_routing_tag _ _ _ Er) as Htag.
  destruct (get r "name") as [prev|] eqn:Eprev; [|done]. simpl in H.
  destruct (unique_name_spec out_el "element" "_" prev) as (k & Hu & Hfree & Hbefore).
  rewrite Hu in H.
  assert (Htaken : taken out_el "element" prev <-> candidate "_" prev k <> prev).
  { split.
    - intros Ht Heq. apply Hfree. by rewrite Heq.
    - intros Hne. destruct k as [|k]; [by rewrite candidate_0 in Hne|].
      rewrite <- (candidate_0 "_" prev). apply Hbefore. lia. }
  destruct (bool_decide (candidate "_" prev k <> prev)) eqn:Ene;
    [apply bool_decide_eq_true in Ene|apply bool_decide_eq_false in Ene];
    injection H as <- <-.
  - exists prev, (candidate "_" prev k),
      (override_name_label (set r "name" (candidate "_" prev k)) prev).
    destruct (override_name_label_keeps (set r "name" (candidate "_" prev k)) prev)
      as [Ht Ha].
    split_and!; try done; try congruence.
    + rewrite Ht. simpl. congruence.
    + unfold get. rewrite Ha. apply get_set_eq.
    + by right.
  - exists prev, (candidate "_" prev k), (set r "name" (candidate "_" prev k)).
    split_and!; try done; try congruence.
    + simpl. congruence.
    + apply get_set_eq.
    + left. split; [|done]. by destruct (decide (candidate "_" prev k = prev)).
Qed.

Lemma append_xml_elements_body_taken infile out_el m child out' m' name :
  append_xml_elements_body infile (out_el, m) child = Ok (out', m') ->
  taken out_el "element" name -> taken out' "element" name.
Proof.
  intros (prev & nm & new & _ & _ & -> & _)%append_xml_elements_body_spec.
  apply taken_append.
Qed.

(** After an element is merged, its original name is taken. *)
Lemma append_xml_elements_body_takes infile out_el m child out' m' prev :
  append_xml_elements_body infile (out_el, m) child = Ok (out', m') ->
  get child "name" = Some prev -> taken out' "element" prev.
Proof.
  intros (prev' & nm & new & _ & Hp & -> & Ht & Hn & Hfree & Hne & _)
           %append_xml_elements_body_spec Hprev.
  assert (prev' = prev) as -> by congruence.
  destruct (decide (taken out_el "element" prev)) as [Htk|Htk];
    [by apply taken_append|].
  destruct (decide (nm = prev)) as [->|Hnm]; [by apply taken_append_new|].
  exfalso. by apply Htk, Hne.
Qed.

Lemma elements_loop_taken infile l out_el m out' m' name :
  for_each (append_xml_elements_body infile) (out_el, m) l = Ok (out', m') ->
  taken out_el "element" name -> taken out' "element" name.
Proof.
  intros H Ht.
  apply (for_each_invariant (fun s => taken s.1 "element" name)
           (append_xml_elements_body infile) (out_el, m) (out', m') l); try done.
  intros [o1 m1] c [o2 m2] _ ? ?. by eapply append_xml_elements_body_taken.
Qed.

Lemma elements_loop_map_other infile l out_el m out' m' name :
  for_each (append_xml_elements_body infile) (out_el, m) l = Ok (out', m') ->
  (forall e, e ∈ l -> get e "name" <> Some name) ->
  m' !! name = m !! name.
Proof.
  revert out_el m. induction l as [|e l IH]; intros out_el m H Hl.
  - by injection H as <- <-.
  - rewrite for_each_cons in H.
    destruct (append_xml_elements_body infile (out_el, m) e) as [[o1 m1]|] eqn:E;
      [|discriminate H].
    rewrite (IH o1 m1 H) by (intros; apply Hl; by right).
    apply append_xml_elements_body_spec in E
      as (prev & nm & new & _ & Hp & _ & _ & _ & _ & _ & [[_ ->]|[_ ->]]); [done|].
    apply lookup_insert_ne. intros ->. by apply (Hl e); [left|].
Qed.

Lemma elements_loop_children infile l out_el m out' m' :
  for_each (append_xml_elements_body infile) (out_el, m) l = Ok (out', m') ->
  exists news, children out' = children out_el ++ news /\ length news = length l.
Proof.
  revert out_el m. induction l as [|e l IH]; intros out_el m H.
  - injection H as <- <-. exists []. by rewrite app_nil_r.
  - rewrite for_each_cons in H.
    destruct (append_xml_elements_body infile (out_el, m) e) as [[o1 m1]|] eqn:E;
      [|discriminate H].
    destruct (IH o1 m1 H) as (news & Hc & Hl).
    apply append_xml_elements_body_spec in E as (prev & nm & new & _ & _ & -> & _).
    exists (new :: news). simpl in *. rewrite Hc, <- app_assoc. split; [done|lia].
Qed.

(** ** Elements of one name in one input *)

Lemma update_signal_element_names_in el m name new_name :
  tag el = "contactref" -> get el "element" = Some name ->
  m !! name = Some new_name ->
  get (update_signal_element_names el m) "element" = Some new_name.
Proof.
  intros Ht Hn Hm. unfold update_signal_element_names.
  rewrite Ht, Hn, Hm. simpl. apply get_set_eq.
Qed.

(** C10: when two elements of one input's elements section have the same
    original name, the later rename overwrites the entry of that name in the
    rename map: after the section is merged, the map binds the name to the
    new name of the last element that had it, which differs from the
    original, and a contactref that names the original is rewritten to that
    new name, whichever of the elements it referred to. *)
Theorem shared_name_maps_to_last_rename
  (infile : InputFile) (out_el in_el out' : node) (m m' : gmap string string)
  (l1 l2 l3 : list node) (e1 e2 : node) (name : string) :
  append_xml_elements out_el in_el m infile = Ok (out', m') ->
  children in_el = l1 ++ e1 :: l2 ++ e2 :: l3 ->
  get e1 "name" = Some name ->
  get e2 "name" = Some name ->
  (forall e, e ∈ l3 -> get e "name" <> Some name) ->
  exists new2 name2,
    children out' !! (length (children out_el) + length l1 + 1 + length l2)%nat
    = Some new2
    /\ get new2 "name" = Some name2
    /\ name2 <> name
    /\ m' !! name = Some name2
    /\ forall c, tag c = "contactref" -> get c "element" = Some name ->
         get (update_signal_element_names c m') "element" = Some name2.
Proof.
  unfold append_xml_elements. intros H Hcs Hn1 Hn2 Hl3.
  destruct (for_each _ _ _) as [[o m0]|] eqn:Eloop; [|done].
  apply no_attributes_ok in H as [[= -> ->] _].
  rewrite Hcs, for_each_app in Eloop.
  destruct (for_each _ _ l1) as [[o1 m1]|] eqn:E1; [|done].
  rewrite for_each_cons in Eloop.
  destruct (append_xml_elements_body _ _ e1) as [[o1' m1']|] eqn:Ee1; [|done].
  rewrite for_each_app in Eloop.
  destruct (for_each _ _ l2) as [[o2 m2]|] eqn:E2; [|done].
  rewrite for_each_cons in Eloop.
  destruct (append_xml_elements_body _ _ e2) as [[o2' m2']|] eqn:Ee2; [|done].
  assert (Htaken : taken o2 "element" name).
  { eapply elements_loop_taken; [exact E2|].
    by eapply append_xml_elements_body_takes. }
  apply elements_loop_children in E1 as (n1 & Hc1 & Hlen1).
  apply elements_loop_children in E2 as (n2 & Hc2 & Hlen2).
  pose proof (elements_loop_map_other _ _ _ _ _ _ _ Eloop Hl3) as Hm.
  apply elements_loop_children in Eloop as (n3 & Hc3 & Hlen3).
  pose proof Ee1 as (? & ? & new1 & _ & _ & -> & _)%append_xml_elements_body_spec.
  apply append_xml_elements_body_spec in Ee2
    as (prev & name2 & new2 & _ & Hp & -> & _ & Hnew & _ & Hne & Hmap).
  assert (prev = name) as -> by congruence.
  apply Hne in Htaken.
  destruct Hmap as [[? _]|[_ ->]]; [done|].
  exists new2, name2. split_and!; try done.
  - rewrite Hc3. simpl. rewrite <- app_assoc. simpl.
    apply list_lookup_middle. rewrite Hc2. simpl. rewrite Hc1.
    rewrite !length_app. simpl. lia.
  - rewrite Hm. apply lookup_insert_eq.
  - intros c Ht Hc. eapply update_signal_element_names_in; eauto.
    rewrite Hm. apply lookup_insert_eq.
Qed.

Lemma shared_name_maps_to_last_rename_witness :
  exists new2 name2,
    children twin_elements_out !! 1%nat = Some new2
    /\ get new2 "name" = Some name2
    /\ name2 <> "R1"
    /\ ({["R1" := "R1_1"]} : gmap string string) !! "R1" = Some name2
    /\ forall c, tag c = "contactref" -> get c "element" = Some "R1" ->
         get (update_signal_element_names c {["R1" := "R1_1"]}) "element"
         = Some name2.
Proof.
  apply (shared_name_maps_to_last_rename (plain_input "a.brd")
           (Element "elements") twin_elements twin_elements_out
           ∅ {["R1" := "R1_1"]} [] [] []
           (elem "element" [("name", "R1"); ("x", "0"); ("y", "0")] [])
           (elem "element" [("name", "R1"); ("x", "10"); ("y", "0")] [])
           "R1").
  - vm_compute. reflexivity.
  - reflexivity.
  - reflexivity.
  - reflexivity.
  - intros e He. inversion He.
Defined.

(** ** References to renamed elements *)

Lemma update_signal_element_names_spec el m :
  tag el = "contactref" ->
  tag (update_signal_element_names el m) = "contactref"
  /\ children (update_signal_element_names el m) = children el
  /\ (forall key, key <> "element" ->
        get (update_signal_element_names el m) key = get el key)
  /\ get (update_signal_element_names el m) "element"
     = renamed m <$> get el "element"
  /\ (forall name, get el "element" = Some name -> m !! name = None ->
        update_signal_element_names el m = el).
Proof.
  intros Ht. unfold update_signal_element_names, renamed. rewrite Ht. simpl.
  destruct (get el "element") as [name|] eqn:En; [|by split_and!].
  destruct (m !! name) as [new_name|] eqn:Em; simpl.
  - split_and!; try done.
    + intros key Hk. by apply get_set_ne.
    + rewrite get_set_eq. simpl. by rewrite Em.
    + intros ? [= <-]. congruence.
  - split_and!; try done. simpl. by rewrite Em.
Qed.

Lemma update_signal_children_spec infile m cs cs' :
  update_signal_children infile m cs = Ok cs' ->
  Forall2 (fun c c' => exists r, update_routing infile c = Ok r
                                 /\ c' = update_signal_element_names r m) cs cs'.
Proof.
  revert cs'. induction cs as [|c cs IH]; intros cs' H; simpl in H.
  - injection H as <-. constructor.
  - destruct (update_routing infile c) as [r|] eqn:Er; [|done].
    destruct (update_signal_children infile m cs) as [cs''|]; [|done].
    injection H as <-. constructor; [eauto|by apply IH].
Qed.

(** One turn of the loop of [append_xml_signals]. *)
Lemma append_xml_signals_body_spec m infile out_el child out' :
  append_xml_signals_body m infile out_el child = Ok out' ->
  exists prev name new,
    tag child = "signal" /\ get child "name" = Some prev
    /\ out' = append out_el new /\ tag new = "signal"
    /\ get new "name" = Some name
    /\ ~ taken out_el "signal" name
    /\ update_signal_children infile m (children child) = Ok (children new).
Proof.
  unfold append_xml_signals_body, deepcopy. intros H.
  destruct (String.eqb (tag child) "signal") eqn:Et; [|done].
  apply String.eqb_eq in Et.
  destruct (update_signal_children _ _ _) as [cs|] eqn:Ecs; [|done].
  change (get (with_children child cs) "name") with (get child "name") in H.
  destruct (get child "name") as [prev|] eqn:Eprev; [|done]. simpl in H.
  destruct (unique_name_spec out_el "signal" "" prev) as (k & Hu & Hfree & _).
  rewrite Hu in H. injection H as <-.
  exists prev, (candidate "" prev k),
    (set (with_children child cs) "name" (candidate "" prev k)).
  split_and!; try done. apply get_set_eq.
Qed.

Lemma signals_loop_children m infile l out_el out' :
  for_each (append_xml_signals_body m infile) out_el l = Ok out' ->
  exists news, children out' = children out_el ++ news /\
    Forall2 (fun sig new =>
               update_signal_children infile m (children sig) = Ok (children new))
      l news.
Proof.
  revert out_el. induction l as [|e l IH]; intros out_el H.
  - injection H as <-. exists []. by rewrite app_nil_r.
  - rewrite for_each_cons in H.
    destruct (append_xml_signals_body m infile out_el e) as [o1|] eqn:E;
      [|discriminate H].
    destruct (IH o1 H) as (news & Hc & Hl).
    apply append_xml_signals_body_spec in E
      as (prev & nm & new & _ & _ & -> & _ & _ & _ & Hcs).
    exists (new :: news). simpl in *. rewrite Hc, <- app_assoc.
    split; [done|by constructor].
Qed.

(** Only an elements section changes the rename map of [merge_xml_board]. *)
Lemma merge_xml_board_body_map infile out_el m child out' m' :
  merge_xml_board_body infile (out_el, m) child = Ok (out', m') ->
  tag child <> "elements" -> m' = m.
Proof.
  unfold merge_xml_board_body. intros H Ht.
  repeat match type of H with
  | (if String.eqb ?a ?b then _ else _) = Ok _ =>
      let E := fresh "E" in
      destruct (String.eqb a b) eqn:E; [try (apply String.eqb_eq in E; done)|]
  | (let '(_, _) := ?p in _) = Ok _ => destruct p
  end; ok_inv H; try done; congruence.
Qed.

Lemma merge_xml_board_loop_map infile l out_el m out' m' :
  for_each (merge_xml_board_body infile) (out_el, m) l = Ok (out', m') ->
  (forall c, c ∈ l -> tag c <> "elements") -> m' = m.
Proof.
  intros H Hl.
  apply (for_each_invariant (fun s => s.2 = m)
           (merge_xml_board_body infile) (out_el, m) (out', m') l); try done.
  intros [o1 m1] c [o2 m2] Hc Hm Hb. simpl in *. subst m1.
  eapply merge_xml_board_body_map; eauto.
Qed.

Lemma merge_xml_board_body_elements infile out_el m child :
  tag child = "elements" ->
  merge_xml_board_body infile (out_el, m) child
  = (let '(out_el, i) := find_or_create_child out_el "elements" in
     r <- append_xml_elements (child_at out_el i) child m infile ;;
     Ok (put_child out_el i r.1, r.2)).
Proof. unfold merge_xml_board_body. by intros ->. Qed.

Lemma merge_xml_board_body_signals infile out_el m child :
  tag child = "signals" ->
  merge_xml_board_body infile (out_el, m) child
  = (let '(out_el, i) := find_or_create_child out_el "signals" in
     c <- append_xml_signals (child_at out_el i) child m infile ;;
     Ok (put_child out_el i c, m)).
Proof. unfold merge_xml_board_body. by intros ->. Qed.

(** C9: [append_xml_signals] rewrites every contactref of every signal it
    merges through the rename map it is given: the element attribute that
    is a key of the map becomes the mapped name, one that is not a key
    leaves the contactref as it was, and the other attributes stay.  The
    map it is given by [merge_xml_board] is the one that the elements
    section of the same board, merged before, filled from the empty map of
    this call. *)
Theorem signals_rewrite_references_through_map :
  (forall infile out_el in_el (m : gmap string string) out',
      append_xml_signals out_el in_el m infile = Ok out' ->
      exists news,
        children out' = children out_el ++ news
        /\ Forall2 (fun sig new =>
                      Forall2 (reference_rewritten m) (children sig) (children new))
             (children in_el) news)
  /\ (forall infile out_el in_el out' pre els mid sigs post,
        merge_xml_board out_el in_el infile = Ok out' ->
        children in_el = pre ++ els :: mid ++ sigs :: post ->
        tag els = "elements" -> tag sigs = "signals" ->
        (forall c, c ∈ pre ++ mid -> tag c <> "elements") ->
        exists o1 oe i elements_out' (m : gmap string string)
               o3 os j signals_out' m',
          for_each (merge_xml_board_body infile) (out_el, ∅) pre = Ok (o1, ∅)
          /\ find_or_create_child o1 "elements" = (oe, i)
          /\ append_xml_elements (child_at oe i) els ∅ infile
             = Ok (elements_out', m)
          /\ for_each (merge_xml_board_body infile)
               (put_child oe i elements_out', m) mid = Ok (o3, m)
          /\ find_or_create_child o3 "signals" = (os, j)
          /\ append_xml_signals (child_at os j) sigs m infile = Ok signals_out'
          /\ for_each (merge_xml_board_body infile)
               (put_child os j signals_out', m) post = Ok (out', m')).
Proof.
  split.
  - intros infile out_el in_el m out'. unfold append_xml_signals. intros H.
    destruct (for_each _ _ _) as [o|] eqn:Eloop; [|done].
    apply no_attributes_ok in H as [-> _].
    apply signals_loop_children in Eloop as (news & Hc & Hl).
    exists news. split; [done|].
    eapply Forall2_impl; [exact Hl|]. intros sig new Hcs. simpl in Hcs.
    apply update_signal_children_spec in Hcs.
    eapply Forall2_impl; [exact Hcs|]. intros c c' (r & Hr & ->) Ht.
    rewrite update_routing_contactref in Hr by done. injection Hr as <-.
    destruct (update_signal_element_names_spec c m Ht) as (? & ? & ? & ? & ?).
    by split_and!.
  - intros infile out_el in_el out' pre els mid sigs post H Hcs Hte Hts Hother.
    unfold merge_xml_board in H.
    destruct (for_each _ _ _) as [[o m]|] eqn:Eloop; [|done].
    simpl in H. apply no_attributes_ok in H as [-> _].
    rewrite Hcs, for_each_app in Eloop.
    destruct (for_each _ _ pre) as [[o1 m1]|] eqn:E1; [|done].
    pose proof (merge_xml_board_loop_map _ _ _ _ _ _ E1
                  ltac:(intros; apply Hother; set_solver)) as ->.
    rewrite for_each_cons in Eloop.
    destruct (merge_xml_board_body _ _ els) as [[o2 m2]|] eqn:E2; [|done].
    rewrite for_each_app in Eloop.
    destruct (for_each _ _ mid) as [[o3 m3]|] eqn:E3; [|done].
    pose proof (merge_xml_board_loop_map _ _ _ _ _ _ E3
                  ltac:(intros; apply Hother; set_solver)) as ->.
    rewrite for_each_cons in Eloop.
    destruct (merge_xml_board_body _ _ sigs) as [[o4 m4]|] eqn:E4; [|done].
    rewrite merge_xml_board_body_elements in E2 by done.
    rewrite merge_xml_board_body_signals in E4 by done.
    destruct (find_or_create_child o1 "elements") as [oe i] eqn:Ef1.
    destruct (find_or_create_child o3 "signals") as [os j] eqn:Ef2.
    destruct (append_xml_elements _ _ _ _) as [[oe' me]|] eqn:Ee; [|done].
    destruct (append_xml_signals _ _ _ _) as [os'|] eqn:Es; [|done].
    injection E2 as <- <-. injection E4 as <- <-. simpl in *.
    exists o1, oe, i, oe', me, o3, os, j, os', m. by split_and!.
Qed.

Lemma signals_rewrite_references_through_map_witness :
  exists news,
    children refs_signals_out = children (Element "signals") ++ news
    /\ Forall2 (fun sig new =>
                  Forall2 (reference_rewritten {["R1" := "R1_1"]})
                    (children sig) (children new))
         (children refs_signals) news.
Proof.
  apply (proj1 signals_rewrite_references_through_map (plain_input "a.brd")
           (Element "signals") refs_signals {["R1" := "R1_1"]} refs_signals_out).
  vm_compute. reflexivity.
Defined.

(** ** Names stay distinct *)

Lemma find_or_create_child_spec el tag' o i :
  find_or_create_child el tag' = (o, i) ->
  tag o = tag el /\ attrib o = attrib el
  /\ children o !! i = Some (child_at o i)
  /\ tag (child_at o i) = tag'
  /\ ((o = el /\ find_child_at el tag' [] = Some (i, child_at o i))
      \/ (o = append el (Element tag') /\ i = length (children el)
          /\ child_at o i = Element tag' /\ find_child_at el tag' [] = None)).
Proof.
  unfold find_or_create_child. intros H.
  destruct (find_child_at el tag' []) as [[j c]|] eqn:E; injection H as <- <-.
  - unfold find_child_at in E. pose proof E as E'.
    apply list_find_Some in E as (Hj & [Ht _] & _).
    unfold child_at. rewrite Hj. simpl. split_and!; try done. by left.
  - assert (children (append el (Element tag')) !! length (children el)
            = Some (Element tag')) as Hl.
    { simpl. by apply list_lookup_middle. }
    unfold child_at. rewrite Hl. simpl. split_and!; try done. by right.
Qed.

Lemma put_child_Forall (P : node -> Prop) o i c :
  Forall P (children o) -> P c -> Forall P (children (put_child o i c)).
Proof. intros Ho Hc. simpl. by apply Forall_insert. Qed.

Lemma append_Forall (P : node -> Prop) o c :
  Forall P (children o) -> P c -> Forall P (children (append o c)).
Proof. intros Ho Hc. simpl. apply Forall_app. split; [done|by constructor]. Qed.

Lemma named_children_ok_append child_tag sec new name :
  named_children_ok child_tag sec ->
  tag new = child_tag -> get new "name" = Some name ->
  ~ taken sec child_tag name ->
  named_children_ok child_tag (append sec new).
Proof.
  intros [Htags Hnd] Ht Hn Hfree. split; [by apply append_Forall|].
  unfold names. simpl. rewrite fmap_app. simpl.
  apply NoDup_app. split_and!; [done| |apply NoDup_singleton].
  intros x Hx ->%list_elem_of_singleton. apply Hfree.
  apply list_elem_of_fmap in Hx as (c & Hc & Hin).
  apply taken_iff. exists c. split_and!; [done| |congruence].
  by eapply (proj1 (Forall_forall _ _)) in Htags.
Qed.

Lemma named_children_ok_distinct child_tag sec :
  named_children_ok child_tag sec -> distinct_names sec.
Proof.
  intros [_ Hnd] i j c1 c2 name Hi Hj H1 H2.
  eapply NoDup_lookup; [exact Hnd| |]; unfold names; rewrite list_lookup_fmap.
  - rewrite Hi. simpl. by rewrite H1.
  - rewrite Hj. simpl. by rewrite H2.
Qed.

Lemma append_xml_elements_ok out_el in_el m infile out' m' :
  append_xml_elements out_el in_el m infile = Ok (out', m') ->
  tag out' = tag out_el
  /\ (named_children_ok "element" out_el -> named_children_ok "element" out').
Proof.
  unfold append_xml_elements. intros H.
  destruct (for_each _ _ _) as [[o m0]|] eqn:Eloop; [|done].
  apply no_attributes_ok in H as [[= <- <-] _].
  apply (for_each_invariant
           (fun s => tag s.1 = tag out_el
                     /\ (named_children_ok "element" out_el ->
                         named_children_ok "element" s.1))
           (append_xml_elements_body infile) (out_el, m) (out', m')
           (children in_el)); try done.
  intros [o1 m1] c [o2 m2] _ [Ht Hok] Hb. simpl in *.
  apply append_xml_elements_body_spec in Hb
    as (prev & name & new & _ & _ & -> & Htn & Hn & Hfree & _).
  split; [done|]. intros Hout. by eapply named_children_ok_append; eauto.
Qed.

Lemma append_xml_signals_ok out_el in_el m infile out' :
  append_xml_signals out_el in_el m infile = Ok out' ->
  tag out' = tag out_el
  /\ (named_children_ok "signal" out_el -> named_children_ok "signal" out').
Proof.
  unfold append_xml_signals. intros H.
  destruct (for_each _ _ _) as [o|] eqn:Eloop; [|done].
  apply no_attributes_ok in H as [<- _].
  apply (for_each_invariant
           (fun s => tag s = tag out_el
                     /\ (named_children_ok "signal" out_el ->
                         named_children_ok "signal" s))
           (append_xml_signals_body m infile) out_el out'
           (children in_el)); try done.
  intros o1 c o2 _ [Ht Hok] Hb. simpl in *.
  apply append_xml_signals_body_spec in Hb
    as (prev & name & new & _ & _ & -> & Htn & Hn & Hfree & _).
  split; [done|]. intros Hout. by eapply named_children_ok_append; eauto.
Qed.

(** The merge functions leave the tag of their output element alone. *)

Lemma for_each_tag (body : node -> node -> result node) out_el l out' :
  (forall s c s', body s c = Ok s' -> tag s' = tag s) ->
  for_each body out_el l = Ok out' -> tag out' = tag out_el.
Proof.
  intros Hbody H.
  apply (for_each_invariant (fun s => tag s = tag out_el) body out_el out' l);
    try done.
  intros s c s' _ Hs Hb. rewrite (Hbody _ _ _ Hb). done.
Qed.

Lemma sync_child_tag el tag' child : tag (sync_child el tag' child) = tag el.
Proof. unfold sync_child. by destruct (find_child _ _ _). Qed.

Lemma sync_child_error_tag el tag' child infile err el' :
  sync_child_error el tag' child infile err = Ok el' -> tag el' = tag el.
Proof.
  unfold sync_child_error. intros H.
  destruct (find_child _ _ _); ok_inv H; by subst.
Qed.

Lemma append_xml_plain_tag out_el in_el infile out' :
  append_xml_plain out_el in_el infile = Ok out' -> tag out' = tag out_el.
Proof.
  unfold append_xml_plain. intros H.
  destruct (for_each _ _ _) as [o|] eqn:Eloop; [|done].
  apply no_attributes_ok in H as [-> _].
  eapply for_each_tag; [|exact Eloop].
  intros s c s' Hb. unfold append_xml_plain_body in Hb. ok_inv Hb. by subst.
Qed.

Lemma merge_xml_libraries_tag out_el in_el infile out' :
  merge_xml_libraries out_el in_el infile = Ok out' -> tag out' = tag out_el.
Proof.
  unfold merge_xml_libraries. intros H.
  destruct (for_each _ _ _) as [o|] eqn:Eloop; [|done].
  apply no_attributes_ok in H as [-> _].
  eapply for_each_tag; [|exact Eloop].
  intros s c s' Hb. unfold merge_xml_libraries_body in Hb.
  destruct (String.eqb _ _); [|done].
  destruct (find_child_at _ _ _) as [[i oc]|]; ok_inv Hb; by subst.
Qed.

Lemma merge_xml_layers_tag out_el in_el infile out' :
  merge_xml_layers out_el in_el infile = Ok out' -> tag out' = tag out_el.
Proof.
  unfold merge_xml_layers. intros H.
  destruct (for_each _ _ _) as [o|] eqn:Eloop; [|done].
  apply no_attributes_ok in H as [-> _].
  eapply for_each_tag; [|exact Eloop].
  intros s c s' Hb. unfold merge_xml_layers_body in Hb. ok_inv Hb; by subst.
Qed.

Lemma merge_xml_settings_tag out_el in_el infile log out' log' :
  merge_xml_settings out_el in_el infile log = Ok (out', log') ->
  tag out' = tag out_el.
Proof.
  unfold merge_xml_settings. intros H.
  destruct (for_each _ _ _) as [[o lg]|] eqn:Eloop; [|done].
  apply no_attributes_ok in H as [[= <- <-] _].
  apply (for_each_invariant (fun s => tag s.1 = tag out_el)
           (merge_xml_settings_body infile) (out_el, log) (out', log')
           (children in_el)); try done.
  intros [o1 l1] c [o2 l2] _ Ht Hb. simpl in *.
  unfold merge_xml_settings_body in Hb.
  destruct (String.eqb _ _); [|done]. destruct (children c); [|done].
  destruct (find_child _ _ _); ok_inv Hb; by subst.
Qed.

(** One turn of the loop of [merge_xml_board] keeps the invariant of the
    board. *)
Lemma merge_xml_board_body_ok infile out_el m child out' m' :
  merge_xml_board_body infile (out_el, m) child = Ok (out', m') ->
  tag out' = tag out_el /\ (board_ok out_el -> board_ok out').
Proof.
  unfold merge_xml_board_body, board_ok. intros H.
  assert (Hnew : forall t, t <> "elements" -> t <> "signals" ->
                   forall c, tag c = t -> section_ok c).
  { intros t H1 H2 c Hc. split; congruence. }
  assert (Hempty : forall t, section_ok (Element t)).
  { intros t. split; intros _; (split; [by constructor|by constructor]). }
  repeat match type of H with
  | (if String.eqb ?a ?b then _ else _) = Ok _ =>
      let E := fresh "Et" in
      destruct (String.eqb a b) eqn:E; [apply String.eqb_eq in E|clear E]
  end; try discriminate H;
  repeat match type of H with
  | (let '(_, _) := find_or_create_child ?el ?t in _) = Ok _ =>
      let E := fresh "Ef" in
      destruct (find_or_create_child el t) as [o i] eqn:E;
      apply find_or_create_child_spec in E as (Hto & _ & Hi & Hti & Hcase)
  end; ok_inv H; subst.
  - (* plain *)
    split; [done|]. intros Hok. apply put_child_Forall.
    + destruct Hcase as [[-> _]|(-> & _)]; [done|].
      apply append_Forall; [done|]. apply Hempty.
    + apply (Hnew "plain"); [done|done|].
      erewrite append_xml_plain_tag; eauto.
  - (* libraries *)
    split; [done|]. intros Hok. apply put_child_Forall.
    + destruct Hcase as [[-> _]|(-> & _)]; [done|].
      apply append_Forall; [done|]. apply Hempty.
    + apply (Hnew "libraries"); [done|done|].
      erewrite merge_xml_libraries_tag; eauto.
  - (* attributes *)
    split; [by eapply sync_child_error_tag|]. intros Hok.
    unfold sync_child_error in E. destruct (find_child _ _ _); ok_inv E; subst; [done|].
    apply append_Forall; [done|]. by apply (Hnew "attributes").
  - (* variantdefs *)
    split; [by eapply sync_child_error_tag|]. intros Hok.
    unfold sync_child_error in E. destruct (find_child _ _ _); ok_inv E; subst; [done|].
    apply append_Forall; [done|]. by apply (Hnew "variantdefs").
  - (* classes *)
    split; [by eapply sync_child_error_tag|]. intros Hok.
    unfold sync_child_error in E. destruct (find_child _ _ _); ok_inv E; subst; [done|].
    apply append_Forall; [done|]. by apply (Hnew "classes").
  - (* designrules *)
    split; [by eapply sync_child_error_tag|]. intros Hok.
    unfold sync_child_error in E. destruct (find_child _ _ _); ok_inv E; subst; [done|].
    apply append_Forall; [done|]. by apply (Hnew "designrules").
  - (* autorouter *)
    split; [apply sync_child_tag|]. intros Hok.
    unfold sync_child. destruct (find_child _ _ _); [done|].
    apply append_Forall; [done|]. by apply (Hnew "autorouter").
  - (* elements *)
    destruct a as [c' m'']. simpl.
    apply append_xml_elements_ok in E as [Htc Hkeep].
    split; [done|]. intros Hok.
    assert (Hall : Forall section_ok (children o)).
    { destruct Hcase as [[-> _]|(-> & _)]; [done|].
      apply append_Forall; [done|]. apply Hempty. }
    apply put_child_Forall; [done|].
    split; intros Hs; [|congruence].
    apply Hkeep.
    eapply (proj1 (Forall_forall _ _)) in Hall;
      [|eapply list_elem_of_lookup_2; exact Hi].
    by apply Hall.
  - (* signals *)
    apply append_xml_signals_ok in E as [Htc Hkeep].
    split; [done|]. intros Hok.
    assert (Hall : Forall section_ok (children o)).
    { destruct Hcase as [[-> _]|(-> & _)]; [done|].
      apply append_Forall; [done|]. apply Hempty. }
    apply put_child_Forall; [done|].
    split; intros Hs; [congruence|].
    apply Hkeep.
    eapply (proj1 (Forall_forall _ _)) in Hall;
      [|eapply list_elem_of_lookup_2; exact Hi].
    by apply Hall.
  - (* errors *)
    split; [done|]. intros Hok. unfold append_xml_errors in E. injection E as <-.
    apply put_child_Forall.
    + destruct Hcase as [[-> _]|(-> & _)]; [done|].
      apply append_Forall; [done|]. apply Hempty.
    + by apply (Hnew "errors").
Qed.

Lemma merge_xml_board_ok out_el in_el infile out' :
  merge_xml_board out_el in_el infile = Ok out' ->
  tag out' = tag out_el /\ (board_ok out_el -> board_ok out').
Proof.
  unfold merge_xml_board. intros H.
  destruct (for_each _ _ _) as [[o m]|] eqn:Eloop; [|done].
  simpl in H. apply no_attributes_ok in H as [-> _].
  apply (for_each_invariant
           (fun s => tag s.1 = tag out_el /\ (board_ok out_el -> board_ok s.1))
           (merge_xml_board_body infile) (out_el, ∅) (o, m) (children in_el));
    try done.
  intros [o1 m1] c [o2 m2] _ [Ht Hok] Hb. simpl in *.
  apply merge_xml_board_body_ok in Hb as [Ht' Hok'].
  split; [congruence|auto].
Qed.

Lemma merge_xml_drawing_body_ok infile out_el log child out' log' :
  merge_xml_drawing_body infile (out_el, log) child = Ok (out', log') ->
  drawing_ok out_el -> drawing_ok out'.
Proof.
  unfold merge_xml_drawing_body, drawing_ok. intros H Hok.
  repeat match type of H with
  | (if String.eqb ?a ?b then _ else _) = Ok _ =>
      let E := fresh "Et" in
      destruct (String.eqb a b) eqn:E; [apply String.eqb_eq in E|clear E]
  end; try discriminate H;
  repeat match type of H with
  | (let '(_, _) := find_or_create_child ?el ?t in _) = Ok _ =>
      let E := fresh "Ef" in
      destruct (find_or_create_child el t) as [o i] eqn:E;
      apply find_or_create_child_spec in E as (Hto & _ & Hi & Hti & Hcase)
  end; ok_inv H; subst.
  - (* settings *)
    destruct a as [c' lg]. simpl. apply merge_xml_settings_tag in E.
    apply put_child_Forall; [|intros Hb; congruence].
    destruct Hcase as [[-> _]|(-> & _)]; [done|].
    apply append_Forall; [done|]. discriminate.
  - (* grid *)
    unfold sync_child. destruct (find_child _ _ _); [done|].
    apply append_Forall; [done|]. unfold deepcopy. congruence.
  - (* layers *)
    apply merge_xml_layers_tag in E.
    apply put_child_Forall; [|intros Hb; congruence].
    destruct Hcase as [[-> _]|(-> & _)]; [done|].
    apply append_Forall; [done|]. discriminate.
  - (* board *)
    apply merge_xml_board_ok in E as [_ Hkeep].
    assert (Hall : Forall (fun b => tag b = "board" -> board_ok b) (children o)).
    { destruct Hcase as [[-> _]|(-> & _)]; [done|].
      apply append_Forall; [done|]. intros _. constructor. }
    apply put_child_Forall; [done|]. intros _. apply Hkeep.
    eapply (proj1 (Forall_forall _ _)) in Hall;
      [|eapply list_elem_of_lookup_2; exact Hi].
    by apply Hall.
Qed.

Lemma merge_xml_drawing_ok out_el in_el infile log out' log' :
  merge_xml_drawing out_el in_el infile log = Ok (out', log') ->
  tag out' = tag out_el /\ (drawing_ok out_el -> drawing_ok out').
Proof.
  unfold merge_xml_drawing. intros H.
  destruct (for_each _ _ _) as [[o lg]|] eqn:Eloop; [|done].
  apply no_attributes_ok in H as [[= <- <-] _].
  apply (for_each_invariant
           (fun s => tag s.1 = tag out_el /\ (drawing_ok out_el -> drawing_ok s.1))
           (merge_xml_drawing_body infile) (out_el, log) (out', log')
           (children in_el)); try done.
  intros [o1 l1] c [o2 l2] _ [Ht Hok] Hb. simpl in *. split.
  - rewrite <- Ht. clear -Hb. unfold merge_xml_drawing_body in Hb.
    repeat match type of Hb with
    | (if ?b then _ else _) = Ok _ => destruct b
    | (let '(_, _) := find_or_create_child ?el ?t in _) = Ok _ =>
        let E := fresh "Ef" in
        destruct (find_or_create_child el t) as [o i] eqn:E;
        apply find_or_create_child_spec in E as (Hto & _)
    end; ok_inv Hb; subst; try done. apply sync_child_tag.
  - intros Hout. eapply merge_xml_drawing_body_ok; eauto.
Qed.

Lemma merge_xml_eagle_attrs_children infile out_el in_el in_attrs out' :
  merge_xml_eagle_attrs infile out_el in_el in_attrs = Ok out' ->
  tag out' = tag out_el /\ children out' = children out_el.
Proof.
  revert out_el. induction in_attrs as [|attr l IH]; intros out_el H; simpl in H.
  - by injection H as <-.
  - destruct (String.eqb attr "version"); [|done].
    destruct (get out_el "version").
    + destruct (bool_decide _); [done|]. by apply IH.
    + apply IH in H as [-> ->]. done.
Qed.

Lemma merge_xml_eagle_ok out_el in_el infile log out' log' :
  merge_xml_eagle out_el in_el infile log = Ok (out', log') ->
  tag out' = tag out_el /\ (root_ok out_el -> root_ok out').
Proof.
  unfold merge_xml_eagle. intros H.
  destruct (_ && _); [|done].
  destruct (merge_xml_eagle_attrs _ _ _ _) as [o|] eqn:Ea; [|done].
  apply merge_xml_eagle_attrs_children in Ea as [Hta Hca].
  rewrite <- Hta. unfold root_ok at 1. rewrite <- Hca. fold (root_ok o).
  apply (for_each_invariant
           (fun s => tag s.1 = tag o /\ (root_ok o -> root_ok s.1))
           (merge_xml_eagle_body infile) (o, log) (out', log')
           (children in_el)); try done.
  intros [o1 l1] c [o2 l2] _ [Ht Hok] Hb. simpl in *.
  unfold merge_xml_eagle_body in Hb.
  destruct (String.eqb (tag c) "drawing").
  - destruct (find_or_create_child o1 "drawing") as [od i] eqn:Ef.
    apply find_or_create_child_spec in Ef as (Hto & _ & Hi & Hti & Hcase).
    ok_inv Hb. subst. destruct a as [d lg]. simpl in *.
    apply merge_xml_drawing_ok in E as [_ Hkeep].
    split; [congruence|]. intros Hroot. specialize (Hok Hroot).
    assert (Hall : Forall (fun d => tag d = "drawing" -> drawing_ok d) (children od)).
    { destruct Hcase as [[-> _]|(-> & _)]; [done|].
      apply append_Forall; [done|]. intros _. constructor. }
    apply put_child_Forall; [done|]. intros _. apply Hkeep.
    eapply (proj1 (Forall_forall _ _)) in Hall;
      [|eapply list_elem_of_lookup_2; exact Hi].
    by apply Hall.
  - destruct (String.eqb (tag c) "compatibility"); injection Hb as <- <-; done.
Qed.

Lemma merge_all_ok out_el log infiles out' log' :
  merge_all out_el log infiles = Ok (out', log') ->
  root_ok out_el -> root_ok out'.
Proof.
  revert out_el log. induction infiles as [|[infile in_el] l IH];
    intros out_el log H Hok; simpl in H.
  - by injection H as <- <-.
  - destruct (merge_xml_eagle _ _ _ _) as [[o lg]|] eqn:E; [|done].
    apply merge_xml_eagle_ok in E as [_ Hkeep]. eapply IH; eauto.
Qed.

(** C8: after a merge of any list of inputs that succeeds, the children of
    every elements section and of every signals section of the output (a
    child of a board of a drawing of the root) carry different name
    attributes, whether the names met in one input or in several. *)
Theorem merged_names_are_distinct
  (infiles : list (InputFile * node)) (out : node) (log : list warning) :
  main infiles = Ok (out, log) ->
  forall drawing board sec,
    drawing ∈ children out -> tag drawing = "drawing" ->
    board ∈ children drawing -> tag board = "board" ->
    sec ∈ children board -> tag sec = "elements" \/ tag sec = "signals" ->
    distinct_names sec.
Proof.
  unfold main. intros H drawing board sec Hd Htd Hb Htb Hs Hts.
  apply merge_all_ok in H; [|constructor].
  eapply (proj1 (Forall_forall _ _)) in H; [|exact Hd]. specialize (H Htd).
  eapply (proj1 (Forall_forall _ _)) in H; [|exact Hb]. specialize (H Htb).
  eapply (proj1 (Forall_forall _ _)) in H; [|exact Hs].
  destruct H as [He Hsig].
  destruct Hts as [Hts|Hts];
    eapply named_children_ok_distinct; eauto.
Qed.

Example scenario_elements_names :
  names scenario_elements = [Some "R1"; Some "R1_1"].
Proof. reflexivity. Qed.

Lemma merged_names_are_distinct_witness : distinct_names scenario_elements.
Proof.
  apply (merged_names_are_distinct scenario_inputs scenario_out []
           ltac:(vm_compute; reflexivity)
           scenario_drawing scenario_out_board scenario_elements).
  - by left.
  - reflexivity.
  - by left.
  - reflexivity.
  - by left.
  - by left.
Defined.

(** ** The merge of one input in normal form *)

Lemma with_children_id n : with_children n (children n) = n.
Proof. by destruct n. Qed.

Lemma with_children_app_nil n : with_children n (children n ++ []) = n.
Proof. rewrite app_nil_r. apply with_children_id. Qed.

Lemma find_child_at_fresh_tag el tag' attrs :
  (forall c, c ∈ children el -> tag c <> tag') ->
  find_child_at el tag' attrs = None.
Proof.
  intros H. apply list_find_None, Forall_forall. intros c Hc [Ht _].
  by apply (H c).
Qed.

Lemma find_child_at_fresh_key el tag' key value :
  (forall c, c ∈ children el -> get c key <> Some value) ->
  find_child_at el tag' [(key, Some value)] = None.
Proof.
  intros H. apply list_find_None, Forall_forall. intros c Hc [_ Hv].
  apply (H c Hc). unfold valid in Hv. simpl in Hv.
  rewrite andb_true_r, negb_true_iff, andb_false_iff in Hv.
  rewrite !bool_decide_eq_false in Hv.
  destruct Hv as [Hv|Hv]; [|done].
  by destruct (decide (get c key = Some value)).
Qed.

Lemma child_at_append out c0 :
  child_at (append out c0) (length (children out)) = c0.
Proof. unfold child_at. simpl. by rewrite list_lookup_middle. Qed.

Lemma put_child_append out c0 c :
  put_child (append out c0) (length (children out)) c = append out c.
Proof.
  unfold put_child, append, with_children. simpl. f_equal.
  replace (length (children out)) with (length (children out) + 0)%nat by lia.
  by rewrite insert_app_r.
Qed.

Lemma find_or_create_child_fresh out tag' :
  (forall c, c ∈ children out -> tag c <> tag') ->
  find_or_create_child out tag' = (append out (Element tag'), length (children out)).
Proof.
  intros H. unfold find_or_create_child.
  by rewrite find_child_at_fresh_tag.
Qed.

Lemma for_each_appends_node (body : node -> node -> result node)
  (Q : list node -> node -> Prop) :
  (forall out c, Q (children out) c -> body out c = Ok (append out c)) ->
  forall l out,
    (forall l1 c l2, l = l1 ++ c :: l2 -> Q (children out ++ l1) c) ->
    for_each body out l = Ok (with_children out (children out ++ l)).
Proof.
  intros Hbody l. induction l as [|c l IH]; intros out HQ.
  - simpl. by rewrite with_children_app_nil.
  - rewrite for_each_cons, Hbody.
    + rewrite IH.
      * simpl. unfold with_children. simpl. by rewrite <- app_assoc.
      * intros l1 c' l2 ->. simpl. rewrite <- app_assoc.
        by apply (HQ (c :: l1) c' l2).
    + specialize (HQ [] c l eq_refl). by rewrite app_nil_r in HQ.
Qed.

Lemma for_each_appends_pair {X} (body : node * X -> node -> result (node * X))
  (g : node -> node) (Q : list node -> node -> Prop) (x : X) :
  (forall out c, Q (children out) c -> body (out, x) c = Ok (append out (g c), x)) ->
  forall l out,
    (forall l1 c l2, l = l1 ++ c :: l2 -> Q (children out ++ (g <$> l1)) c) ->
    for_each body (out, x) l
    = Ok (with_children out (children out ++ (g <$> l)), x).
Proof.
  intros Hbody l. induction l as [|c l IH]; intros out HQ.
  - simpl. by rewrite with_children_app_nil.
  - rewrite for_each_cons, Hbody.
    + rewrite IH.
      * simpl. unfold with_children. simpl. by rewrite <- app_assoc.
      * intros l1 c' l2 ->. simpl. rewrite <- app_assoc.
        by apply (HQ (c :: l1) c' l2).
    + specialize (HQ [] c l eq_refl). by rewrite app_nil_r in HQ.
Qed.

(** What [keyed] says of a child and the children before it. *)
Lemma keyed_split key child_tag l l1 c l2 :
  keyed key child_tag l = true -> l = l1 ++ c :: l2 ->
  tag c = child_tag
  /\ exists value, get c key = Some value
                   /\ forall c', c' ∈ l1 -> get c' key <> Some value.
Proof.
  unfold keyed. intros [Hall Hnd]%andb_true_iff ->.
  apply bool_decide_eq_true in Hnd.
  rewrite forallb_forall in Hall.
  specialize (Hall c ltac:(apply in_or_app; right; by left)).
  apply andb_true_iff in Hall as [Ht Hk]. apply String.eqb_eq in Ht.
  apply bool_decide_eq_true in Hk as [value Hv].
  split; [done|]. exists value. split; [done|].
  intros c' Hc' Heq.
  rewrite fmap_app, fmap_cons in Hnd.
  apply NoDup_app in Hnd as (_ & Hdisj & _).
  apply (Hdisj (Some value)).
  - apply list_elem_of_fmap. by exists c'.
  - rewrite Hv. by left.
Qed.

Lemma forallb_split (p : node -> bool) l l1 c l2 :
  forallb p l = true -> l = l1 ++ c :: l2 -> p c = true.
Proof.
  intros H ->. rewrite forallb_forall in H. apply H.
  apply in_or_app. right. by left.
Qed.

Lemma no_attrib_ok {A} infile n (s : A) :
  no_attrib n = true -> no_attributes infile n s = Ok s.
Proof.
  unfold no_attrib, no_attributes. intros ->%bool_decide_eq_true. done.
Qed.

Lemma bare_Element n cs :
  no_attrib n = true -> with_children (Element (tag n)) cs = bare n cs.
Proof. unfold no_attrib, bare. by intros ->%bool_decide_eq_true. Qed.

Lemma set_same el key value : get el key = Some value -> set el key value = el.
Proof.
  destruct el as [t a tx tl cs]. unfold get, set. simpl. intros H.
  by rewrite attr_set_same.
Qed.

(** *** The transform at rotation 0 and offsets (0,0) *)

Lemma float_lit_0 : float_lit "0" = S754_zero false.
Proof. reflexivity. Qed.

(** Adding the offset 0 changes no float but -0.0. *)
Lemma fadd_zero f : f <> S754_zero true -> Py.fadd f (S754_zero false) = f.
Proof. destruct f as [[]| | |]; done. Qed.

Lemma offset_and_rotate_plain p x y :
  x <> S754_zero true -> y <> S754_zero true ->
  offset_and_rotate x y (plain_input p) = Ok (x, y).
Proof.
  intros Hx Hy. unfold offset_and_rotate, plain_input.
  cbn [rotation offsetx offsety]. rewrite float_lit_0. simpl.
  by rewrite !fadd_zero.
Qed.

Lemma canonical_float_spec s :
  canonical_float s = true ->
  exists f, Py.float_of_str s = Some f /\ Py.str_of_float f = s
            /\ f <> S754_zero true.
Proof.
  unfold canonical_float. destruct (Py.float_of_str s) as [f|]; [|done].
  intros [Hs Hz]%andb_true_iff. exists f. split_and!; [done| |].
  - by apply String.eqb_eq.
  - apply negb_true_iff in Hz. by apply bool_decide_eq_false in Hz.
Qed.

(** A pair of coordinates in canonical form is written back as it is. *)
Lemma update_xml_routing_pos_plain p el xattr yattr :
  point_canonical el (xattr, yattr) = true ->
  update_xml_routing_pos el xattr yattr (plain_input p) = Ok el.
Proof.
  unfold point_canonical, update_xml_routing_pos. cbn [fst snd].
  destruct (get el xattr) as [x|] eqn:Ex; [|done].
  destruct (get el yattr) as [y|] eqn:Ey; [|done].
  intros [Hx Hy]%andb_true_iff.
  apply canonical_float_spec in Hx as (fx & -> & Hsx & Hzx).
  apply canonical_float_spec in Hy as (fy & -> & Hsy & Hzy).
  unfold or_raise. cbv beta iota.
  rewrite offset_and_rotate_plain by done. cbv beta iota. cbn [fst snd].
  rewrite Hsx, Hsy. rewrite (set_same el) by done. by rewrite set_same.
Qed.

Lemma degrees_spec d :
  d ∈ degrees ->
  all_chars Py.is_digit d = true /\ d <> ""
  /\ Py.str_of_int (Py.int_of_digits d mod 360) = d
  /\ (String.length d <= 4300)%nat.
Proof.
  intros Hd.
  assert (H : forallb (fun d => all_chars Py.is_digit d
                                && negb (String.eqb d "")
                                && String.eqb (Py.str_of_int (Py.int_of_digits d mod 360)) d
                                && (String.length d <=? 3)%nat)
                degrees = true) by (vm_compute; reflexivity).
  rewrite forallb_forall in H. apply list_elem_of_In in Hd.
  apply H in Hd as [[[H1 H2]%andb_true_iff H3]%andb_true_iff H4]%andb_true_iff.
  split_and!; [done| |by apply String.eqb_eq|apply Nat.leb_le in H4; lia].
  apply negb_true_iff in H2. by apply String.eqb_neq.
Qed.

(** An orientation in canonical form, and an absent one, is written back
    as it is. *)
Lemma update_xml_routing_rot_plain p el :
  rot_canonical el = true ->
  update_xml_routing_rot el "rot" (plain_input p) = Ok el.
Proof.
  unfold rot_canonical. destruct (get el "rot") as [s|] eqn:Eg.
  - unfold canonical_rot. intros Hd%bool_decide_eq_true.
    pose proof (span_app Py.is_letter s) as Hs.
    destruct (Py.span Py.is_letter s) as [a b]. destruct Hs as [-> Ha].
    apply degrees_spec in Hd as (Hb & Hne & Hmod & Hlen).
    simpl in Hb, Hne, Hmod, Hlen.
    rewrite (update_xml_routing_rot_rotates el "rot" (plain_input p) (a +:+ b) a b).
    + rewrite Eg. rewrite bool_decide_eq_false_2 by done. simpl.
      unfold rotated. rewrite Z.sub_0_r, Z.add_0_r.
      destruct (Py.contains "M" a); rewrite Hmod; by rewrite set_same.
    + left. split; [done|]. by apply app_nonempty_r.
    + by split_and!.
    + done.
  - intros _. by rewrite update_xml_routing_rot_absent.
Qed.

Lemma update_routing_children_plain p cs :
  Forall (fun c => canonical c = true -> update_routing (plain_input p) c = Ok c) cs ->
  forallb canonical cs = true ->
  (fix each (cs0 : list node) : result (list node) :=
     match cs0 with
     | [] => Ok []
     | child :: cs' =>
         child' <- update_routing (plain_input p) child ;;
         cs'' <- each cs' ;; Ok (child' :: cs'')
     end) cs = Ok cs.
Proof.
  induction 1 as [|c cs Hc _ IH]; [done|].
  cbn [forallb]. intros [H1 H2]%andb_true_iff. by rewrite Hc, IH.
Qed.

Lemma update_routing_plain p el :
  canonical el = true -> update_routing (plain_input p) el = Ok el.
Proof.
  induction el as [t a tx tl cs IH] using node_ind'.
  intros H. simpl in H. unfold geometry_of in H. simpl.
  set (el := Node t a tx tl cs) in *.
  repeat match type of H with
  | match (if ?b then _ else _) with _ => _ end = true => destruct b
  end; [..|done]; cbn [points oriented nested forallb] in H;
  repeat match goal with
  | H : _ && _ = true |- _ => apply andb_true_iff in H as [? ?]
  end;
  repeat (rewrite update_xml_routing_pos_plain by done; cbv beta iota);
  repeat (rewrite update_xml_routing_rot_plain by done; cbv beta iota);
  repeat (rewrite update_routing_children_plain by done; cbv beta iota);
  try done.
Qed.

Lemma find_child_fresh_key el tag' key value :
  (forall c, c ∈ children el -> get c key <> Some value) ->
  find_child el tag' [(key, Some value)] = None.
Proof. intros H. unfold find_child. by rewrite find_child_at_fresh_key. Qed.

Lemma unique_name_fresh out_el tag' sep name :
  (forall c, c ∈ children out_el -> get c "name" <> Some name) ->
  unique_name out_el tag' sep name = Ok name.
Proof.
  intros H. unfold unique_name.
  assert (probe (length (children out_el)) out_el tag' sep name "" 1 = Ok "")
    as ->.
  { destruct (length (children out_el)); simpl;
      rewrite app_empty_r, find_child_fresh_key; done. }
  by rewrite app_empty_r.
Qed.

Lemma append_xml_plain_identity p s :
  no_attrib s = true -> forallb (canonical) (children s) = true ->
  append_xml_plain (Element (tag s)) s (plain_input p) = Ok (bare s (children s)).
Proof.
  intros Ha Hs. unfold append_xml_plain.
  rewrite (for_each_appends_node (append_xml_plain_body (plain_input p))
             (fun _ c => canonical c = true)).
  - rewrite no_attrib_ok by done. simpl. by rewrite bare_Element.
  - intros out c Hc. unfold append_xml_plain_body, deepcopy.
    by rewrite update_routing_plain.
  - intros l1 c l2 Hl. by eapply forallb_split.
Qed.

Lemma merge_xml_libraries_identity infile s :
  no_attrib s = true -> keyed "name" "library" (children s) = true ->
  merge_xml_libraries (Element (tag s)) s infile = Ok (bare s (children s)).
Proof.
  intros Ha Hs. unfold merge_xml_libraries.
  rewrite (for_each_appends_node (merge_xml_libraries_body infile)
             (fun pre c => tag c = "library"
                /\ exists v, get c "name" = Some v
                             /\ forall c', c' ∈ pre -> get c' "name" <> Some v)).
  - rewrite no_attrib_ok by done. simpl. by rewrite bare_Element.
  - intros out c (Ht & v & Hv & Hfresh). unfold merge_xml_libraries_body.
    rewrite Ht, Hv. simpl. by rewrite find_child_at_fresh_key.
  - intros l1 c l2 Hl. simpl. by eapply keyed_split.
Qed.

Lemma merge_xml_layers_identity infile s :
  no_attrib s = true -> keyed "number" "layer" (children s) = true ->
  merge_xml_layers (Element (tag s)) s infile = Ok (bare s (children s)).
Proof.
  intros Ha Hs. unfold merge_xml_layers.
  rewrite (for_each_appends_node (merge_xml_layers_body infile)
             (fun pre c => tag c = "layer"
                /\ exists v, get c "number" = Some v
                             /\ forall c', c' ∈ pre -> get c' "number" <> Some v)).
  - rewrite no_attrib_ok by done. simpl. by rewrite bare_Element.
  - intros out c (Ht & v & Hv & Hfresh). unfold merge_xml_layers_body.
    rewrite Ht, Hv. simpl. by rewrite find_child_fresh_key.
  - intros l1 c l2 Hl. simpl. by eapply keyed_split.
Qed.

Lemma append_xml_elements_identity p s (m : gmap string string) :
  no_attrib s = true -> keyed "name" "element" (children s) = true ->
  forallb (canonical) (children s) = true ->
  append_xml_elements (Element (tag s)) s m (plain_input p) = Ok (bare s (children s), m).
Proof.
  intros Ha Hk Hs. unfold append_xml_elements.
  rewrite (for_each_appends_pair (append_xml_elements_body (plain_input p)) id
             (fun pre c => canonical c = true /\ tag c = "element"
                /\ exists v, get c "name" = Some v
                             /\ forall c', c' ∈ pre -> get c' "name" <> Some v)).
  - rewrite no_attrib_ok by done. simpl.
    by rewrite list_fmap_id, bare_Element.
  - intros out c (Hst & Ht & v & Hv & Hfresh).
    unfold append_xml_elements_body, deepcopy.
    rewrite Ht, update_routing_plain by done. simpl. rewrite Hv. simpl.
    rewrite unique_name_fresh by done.
    rewrite set_same by done.
    by rewrite bool_decide_eq_false_2 by (intros Hne; by apply Hne).
  - intros l1 c l2 Hl. simpl. rewrite list_fmap_id.
    split; [by eapply forallb_split|]. by eapply keyed_split.
Qed.

Lemma update_signal_children_identity p cs :
  forallb (canonical) cs = true ->
  update_signal_children (plain_input p) ∅ cs = Ok cs.
Proof.
  induction cs as [|c cs IH]; simpl; [done|].
  intros [Hc Hcs]%andb_true_iff.
  rewrite update_routing_plain, IH by done.
  assert (update_signal_element_names c ∅ = c) as ->; [|done].
  unfold update_signal_element_names.
  destruct (negb _); [done|]. by destruct (get c "element").
Qed.

Lemma append_xml_signals_identity p s :
  no_attrib s = true -> keyed "name" "signal" (children s) = true ->
  forallb (fun sig => forallb (canonical) (children sig)) (children s) = true ->
  append_xml_signals (Element (tag s)) s ∅ (plain_input p) = Ok (bare s (children s)).
Proof.
  intros Ha Hk Hs. unfold append_xml_signals.
  rewrite (for_each_appends_node (append_xml_signals_body ∅ (plain_input p))
             (fun pre c => forallb (canonical) (children c) = true
                /\ tag c = "signal"
                /\ exists v, get c "name" = Some v
                             /\ forall c', c' ∈ pre -> get c' "name" <> Some v)).
  - rewrite no_attrib_ok by done. simpl. by rewrite bare_Element.
  - intros out c (Hst & Ht & v & Hv & Hfresh).
    unfold append_xml_signals_body, deepcopy.
    rewrite Ht, update_signal_children_identity by done. simpl.
    rewrite with_children_id, Hv. simpl.
    rewrite unique_name_fresh by done.
    by rewrite set_same.
  - intros l1 c l2 Hl. simpl.
    split; [|by eapply keyed_split].
    by apply (forallb_split (fun sig => forallb (canonical) (children sig))
                (children s) l1 c l2).
Qed.

Lemma merge_xml_settings_identity infile s :
  no_attrib s = true ->
  match children s with
  | [] => true
  | [c] => String.eqb (tag c) "setting" && bool_decide (children c = [])
  | _ => false
  end = true ->
  merge_xml_settings (Element (tag s)) s infile [] = Ok (bare s (children s), []).
Proof.
  intros Ha Hs. unfold merge_xml_settings.
  pose proof Ha as Ha'. apply bool_decide_eq_true in Ha'.
  destruct (children s) as [|c [|c' cs]] eqn:Ecs; [| |done].
  - simpl. rewrite no_attrib_ok by done. unfold bare, Element. by rewrite Ha'.
  - apply andb_true_iff in Hs as [Ht Hc]. apply bool_decide_eq_true in Hc.
    simpl. rewrite Ht, Hc. simpl.
    rewrite no_attrib_ok by done. unfold bare, append, Element, deepcopy. simpl.
    by rewrite Ha'.
Qed.

Lemma merge_xml_board_body_plain infile out_el m child :
  tag child = "plain" ->
  merge_xml_board_body infile (out_el, m) child
  = (let '(out_el, i) := find_or_create_child out_el "plain" in
     c <- append_xml_plain (child_at out_el i) child infile ;;
     Ok (put_child out_el i c, m)).
Proof. unfold merge_xml_board_body. by intros ->. Qed.

Lemma merge_xml_board_body_libraries infile out_el m child :
  tag child = "libraries" ->
  merge_xml_board_body infile (out_el, m) child
  = (let '(out_el, i) := find_or_create_child out_el "libraries" in
     c <- merge_xml_libraries (child_at out_el i) child infile ;;
     Ok (put_child out_el i c, m)).
Proof. unfold merge_xml_board_body. by intros ->. Qed.

Lemma merge_xml_board_body_errors infile out_el m child :
  tag child = "errors" ->
  merge_xml_board_body infile (out_el, m) child
  = (let '(out_el, i) := find_or_create_child out_el "errors" in
     c <- append_xml_errors (child_at out_el i) child infile ;;
     Ok (put_child out_el i c, m)).
Proof. unfold merge_xml_board_body. by intros ->. Qed.

(** The sections that [merge_xml_board] hands to [sync_child_error] or
    [sync_child]: a first occurrence is appended as it is. *)
Lemma merge_xml_board_body_copied infile out_el m child :
  tag child ∈ ["attributes"; "variantdefs"; "classes"; "designrules"; "autorouter"] ->
  find_child out_el (tag child) [] = None ->
  merge_xml_board_body infile (out_el, m) child = Ok (append out_el child, m).
Proof.
  intros Ht Hf. unfold merge_xml_board_body.
  repeat (apply elem_of_cons in Ht as [Ht|Ht];
          [rewrite Ht in Hf |- *; cbn [String.eqb Ascii.eqb Bool.eqb];
           unfold sync_child_error, sync_child; by rewrite Hf|]).
  by apply elem_of_nil in Ht.
Qed.

Lemma find_child_fresh_tag el tag' attrs :
  (forall c, c ∈ children el -> tag c <> tag') ->
  find_child el tag' attrs = None.
Proof. intros H. unfold find_child. by rewrite find_child_at_fresh_tag. Qed.

Lemma rebuilt_section_tag s : tag (rebuilt_section s) = tag s.
Proof. unfold rebuilt_section. by destruct (bool_decide _). Qed.

Lemma merge_xml_board_body_identity p out c :
  section_normal c = true ->
  (forall c', c' ∈ children out -> tag c' <> tag c) ->
  merge_xml_board_body (plain_input p) (out, ∅) c = Ok (append out (rebuilt_section c), ∅).
Proof.
  unfold section_normal. intros Hn Hfresh.
  destruct (String.eqb (tag c) "plain") eqn:E1.
  { apply String.eqb_eq in E1. apply andb_true_iff in Hn as [Ha Hs].
    rewrite merge_xml_board_body_plain by done. rewrite <- E1.
    rewrite find_or_create_child_fresh, child_at_append by done.
    rewrite append_xml_plain_identity by done. rewrite put_child_append.
    unfold rebuilt_section. rewrite E1. done. }
  destruct (String.eqb (tag c) "libraries") eqn:E2.
  { apply String.eqb_eq in E2. apply andb_true_iff in Hn as [Ha Hs].
    rewrite merge_xml_board_body_libraries by done. rewrite <- E2.
    rewrite find_or_create_child_fresh, child_at_append by done.
    rewrite merge_xml_libraries_identity by done. rewrite put_child_append.
    unfold rebuilt_section. rewrite E2. done. }
  destruct (bool_decide (tag c ∈ _)) eqn:E3.
  { apply bool_decide_eq_true in E3.
    rewrite merge_xml_board_body_copied; [|done|by apply find_child_fresh_tag].
    unfold rebuilt_section.
    assert (bool_decide (tag c ∈ ["plain"; "libraries"; "elements"; "signals";
                                  "errors"]) = false) as ->; [|done].
    clear -E3.
    repeat (apply elem_of_cons in E3 as [->|E3]; [reflexivity|]).
    by apply elem_of_nil in E3. }
  destruct (String.eqb (tag c) "elements") eqn:E4.
  { apply String.eqb_eq in E4.
    apply andb_true_iff in Hn as [[Ha Hk]%andb_true_iff Hs].
    rewrite merge_xml_board_body_elements by done. rewrite <- E4.
    rewrite find_or_create_child_fresh, child_at_append by done.
    rewrite append_xml_elements_identity by done. simpl.
    rewrite put_child_append.
    unfold rebuilt_section. rewrite E4. done. }
  destruct (String.eqb (tag c) "signals") eqn:E5.
  { apply String.eqb_eq in E5.
    apply andb_true_iff in Hn as [[Ha Hk]%andb_true_iff Hs].
    rewrite merge_xml_board_body_signals by done. rewrite <- E5.
    rewrite find_or_create_child_fresh, child_at_append by done.
    rewrite append_xml_signals_identity by done.
    rewrite put_child_append.
    unfold rebuilt_section. rewrite E5. done. }
  destruct (String.eqb (tag c) "errors") eqn:E6; [|done].
  apply String.eqb_eq in E6.
  apply andb_true_iff in Hn as [Ha Hs]. apply bool_decide_eq_true in Hs.
  rewrite merge_xml_board_body_errors by done. rewrite <- E6.
  rewrite find_or_create_child_fresh, child_at_append by done.
  unfold append_xml_errors. rewrite put_child_append.
  unfold rebuilt_section. rewrite E6. simpl.
  apply bool_decide_eq_true in Ha. unfold bare, Element.
  by rewrite Hs, Ha, E6.
Qed.

Lemma distinct_tags_split l l1 c l2 :
  distinct_tags l = true -> l = l1 ++ c :: l2 ->
  forall c0, c0 ∈ l1 -> tag c0 <> tag c.
Proof.
  unfold distinct_tags. intros Hnd%bool_decide_eq_true -> c0 Hc0 Heq.
  rewrite fmap_app, fmap_cons in Hnd.
  apply NoDup_app in Hnd as (_ & Hdisj & _).
  apply (Hdisj (tag c0)).
  - apply list_elem_of_fmap. by exists c0.
  - rewrite Heq. by left.
Qed.

Lemma merge_xml_board_identity p b :
  board_normal b = true ->
  merge_xml_board (Element (tag b)) b (plain_input p) = Ok (rebuilt_board b).
Proof.
  unfold board_normal.
  intros [[Ha Hd]%andb_true_iff Hs]%andb_true_iff. unfold merge_xml_board.
  rewrite (for_each_appends_pair (merge_xml_board_body (plain_input p)) rebuilt_section
             (fun pre c => section_normal c = true
                           /\ forall c', c' ∈ pre -> tag c' <> tag c)).
  - simpl. rewrite no_attrib_ok by done. unfold rebuilt_board.
    by rewrite bare_Element.
  - intros out c [Hn Hfresh]. by apply merge_xml_board_body_identity.
  - intros l1 c l2 Hl. simpl. split; [by eapply forallb_split|].
    intros c' (c0 & -> & Hc0)%list_elem_of_fmap.
    rewrite rebuilt_section_tag. by eapply distinct_tags_split.
Qed.

Lemma merge_xml_drawing_body_settings infile out_el log child :
  tag child = "settings" ->
  merge_xml_drawing_body infile (out_el, log) child
  = (let '(out_el, i) := find_or_create_child out_el "settings" in
     r <- merge_xml_settings (child_at out_el i) child infile log ;;
     Ok (put_child out_el i r.1, r.2)).
Proof. unfold merge_xml_drawing_body. by intros ->. Qed.

Lemma merge_xml_drawing_body_grid infile out_el log child :
  tag child = "grid" ->
  merge_xml_drawing_body infile (out_el, log) child
  = Ok (sync_child out_el "grid" child, log).
Proof. unfold merge_xml_drawing_body. by intros ->. Qed.

Lemma merge_xml_drawing_body_layers infile out_el log child :
  tag child = "layers" ->
  merge_xml_drawing_body infile (out_el, log) child
  = (let '(out_el, i) := find_or_create_child out_el "layers" in
     c <- merge_xml_layers (child_at out_el i) child infile ;;
     Ok (put_child out_el i c, log)).
Proof. unfold merge_xml_drawing_body. by intros ->. Qed.

Lemma merge_xml_drawing_body_board infile out_el log child :
  tag child = "board" ->
  merge_xml_drawing_body infile (out_el, log) child
  = (let '(out_el, i) := find_or_create_child out_el "board" in
     c <- merge_xml_board (child_at out_el i) child infile ;;
     Ok (put_child out_el i c, log)).
Proof. unfold merge_xml_drawing_body. by intros ->. Qed.

Lemma rebuilt_drawing_child_tag s : tag (rebuilt_drawing_child s) = tag s.
Proof.
  unfold rebuilt_drawing_child. destruct (bool_decide _); [done|].
  by destruct (String.eqb _ _).
Qed.

Lemma merge_xml_drawing_body_identity p out c :
  drawing_child_normal c = true ->
  (forall c', c' ∈ children out -> tag c' <> tag c) ->
  merge_xml_drawing_body (plain_input p) (out, []) c
  = Ok (append out (rebuilt_drawing_child c), []).
Proof.
  unfold drawing_child_normal. intros Hn Hfresh.
  destruct (String.eqb (tag c) "settings") eqn:E1.
  { apply String.eqb_eq in E1. apply andb_true_iff in Hn as [Ha Hs].
    rewrite merge_xml_drawing_body_settings by done. rewrite <- E1.
    rewrite find_or_create_child_fresh, child_at_append by done.
    rewrite merge_xml_settings_identity by done. simpl.
    rewrite put_child_append.
    unfold rebuilt_drawing_child. rewrite E1. done. }
  destruct (String.eqb (tag c) "grid") eqn:E2.
  { apply String.eqb_eq in E2.
    rewrite merge_xml_drawing_body_grid by done.
    unfold sync_child. rewrite <- E2. rewrite find_child_fresh_tag by done.
    unfold rebuilt_drawing_child. rewrite E2. done. }
  destruct (String.eqb (tag c) "layers") eqn:E3.
  { apply String.eqb_eq in E3. apply andb_true_iff in Hn as [Ha Hs].
    rewrite merge_xml_drawing_body_layers by done. rewrite <- E3.
    rewrite find_or_create_child_fresh, child_at_append by done.
    rewrite merge_xml_layers_identity by done.
    rewrite put_child_append.
    unfold rebuilt_drawing_child. rewrite E3. done. }
  destruct (String.eqb (tag c) "board") eqn:E4; [|done].
  apply String.eqb_eq in E4.
  rewrite merge_xml_drawing_body_board by done. rewrite <- E4.
  rewrite find_or_create_child_fresh, child_at_append by done.
  rewrite merge_xml_board_identity by done.
  rewrite put_child_append.
  unfold rebuilt_drawing_child. rewrite E4. done.
Qed.

Lemma merge_xml_drawing_identity p d :
  drawing_normal d = true ->
  merge_xml_drawing (Element (tag d)) d (plain_input p) [] = Ok (rebuilt_drawing d, []).
Proof.
  unfold drawing_normal.
  intros [[[_ Ha]%andb_true_iff Hd]%andb_true_iff Hs]%andb_true_iff.
  unfold merge_xml_drawing.
  rewrite (for_each_appends_pair (merge_xml_drawing_body (plain_input p))
             rebuilt_drawing_child
             (fun pre c => drawing_child_normal c = true
                           /\ forall c', c' ∈ pre -> tag c' <> tag c)).
  - simpl. rewrite no_attrib_ok by done. unfold rebuilt_drawing.
    by rewrite bare_Element.
  - intros out c [Hn Hfresh]. by apply merge_xml_drawing_body_identity.
  - intros l1 c l2 Hl. simpl. split; [by eapply forallb_split|].
    intros c' (c0 & -> & Hc0)%list_elem_of_fmap.
    rewrite rebuilt_drawing_child_tag. by eapply distinct_tags_split.
Qed.

Lemma merge_xml_eagle_identity p root :
  normal_form root = true ->
  merge_xml_eagle (Element "eagle") root (plain_input p) [] = Ok (rebuilt root, []).
Proof.
  unfold normal_form.
  intros [[Ht Ha]%andb_true_iff Hc]%andb_true_iff.
  unfold merge_xml_eagle. rewrite Ht. simpl. apply String.eqb_eq in Ht.
  assert (merge_xml_eagle_attrs (plain_input p) (Element "eagle") root
            (map fst (attrib root))
          = Ok (Node "eagle" (attrib root) None None [])) as ->.
  { destruct root as [t a tx tl cs]. simpl in *.
    destruct a as [|[k v] [|??]]; [done| |done].
    apply String.eqb_eq in Ha as ->. done. }
  destruct (children root) as [|d [|??]] eqn:Ecs; [| |done].
  - simpl. unfold rebuilt, bare. by rewrite Ecs, Ht.
  - simpl. unfold merge_xml_eagle_body.
    pose proof Hc as Hc'. unfold drawing_normal in Hc'.
    apply andb_true_iff in Hc' as [[[Htd _]%andb_true_iff _]%andb_true_iff _].
    rewrite Htd. apply String.eqb_eq in Htd.
    unfold find_or_create_child. simpl.
    change (child_at _ 0) with (Element "drawing"). rewrite <- Htd.
    rewrite merge_xml_drawing_identity by done. simpl.
    unfold rebuilt, bare, put_child, with_children. simpl.
    by rewrite Ecs, Ht.
Qed.

(** ** The identity merge *)

Lemma remove_first_head (p : node -> bool) x l :
  p x = true -> remove_first p (x :: l) = Some l.
Proof. simpl. by intros ->. Qed.

(** EQUAL holds of a tree and itself. *)
Lemma structurally_equal_refl n : structurally_equal n n = true.
Proof.
  induction n as [t a tx tl cs IH] using node_ind'.
  cbn [structurally_equal tag tail attrib children].
  rewrite String.eqb_refl, !bool_decide_eq_true_2 by done. simpl.
  induction IH as [|c cs Hc _ IHcs]; [done|].
  by rewrite remove_first_head.
Qed.

Lemma identity_merge_fails p doc out log :
  main [(plain_input p, doc)] = Ok (out, log) ->
  structurally_equal (without_version out) (without_version doc) = false ->
  xml_tree_compare (without_version out) (without_version doc) <> Ok 0 ->
  ~ identity_merge_holds p doc.
Proof.
  intros Hm He Hc (out' & log' & Hm' & H).
  rewrite Hm in Hm'. injection Hm' as <- <-.
  destruct H as [H|H]; congruence.
Qed.

(** The merge of one input in normal form gives the input's tree, rebuilt. *)
Lemma main_identity p doc :
  normal_form doc = true -> main [(plain_input p, doc)] = Ok (rebuilt doc, []).
Proof.
  intros Hn. unfold main. simpl.
  by rewrite merge_xml_eagle_identity.
Qed.

Lemma identity_merge_compact p doc :
  normal_form doc = true -> rebuilt doc = doc -> identity_merge_holds p doc.
Proof.
  intros Hn Hr. exists doc, []. split.
  - rewrite <- Hr at 2. by apply main_identity.
  - left. apply structurally_equal_refl.
Qed.

(** C1, as stated, fails.  The merge of [changed_doc] alone, with no
    rotation and no offsets, succeeds without a warning, and its output
    differs from the input in the coordinates of the wire, which are
    written anew as Python prints floats: 0 becomes 0.0 and 1 becomes 1.0.
    The output is not EQUAL to the input in the words of section 4.1, and
    the comparator of the code, which orders the two wires, returns 1 on
    them (on the two documents it raises, their roots having no trailing
    text).  The output itself is a document of which C1 holds.  Two more
    documents of which C1 fails: one with two signals of one name, the
    second of which is renamed, and one with compatibility notes, which the
    merge leaves out with a warning. *)
Lemma identity_merge_counterexample :
  main [(plain_input "a.brd", changed_doc)] = Ok (changed_out, [])
  /\ ~ identity_merge_holds "a.brd" changed_doc
  /\ structurally_equal wire_0011_out wire_0011 = false
  /\ xml_tree_compare wire_0011_out wire_0011 = Ok 1
  /\ identity_merge_holds "a.brd" changed_out
  /\ main [(plain_input "a.brd", twin_signals_doc)] = Ok (twin_signals_out, [])
  /\ ~ identity_merge_holds "a.brd" twin_signals_doc
  /\ main [(plain_input "a.brd", notes_doc)]
     = Ok (notes_out, [("a.brd", [inl "Compatibility notes ignored"])])
  /\ ~ identity_merge_holds "a.brd" notes_doc.
Proof.
  assert (H1 : main [(plain_input "a.brd", changed_doc)] = Ok (changed_out, []))
    by (vm_compute; reflexivity).
  assert (H2 : main [(plain_input "a.brd", twin_signals_doc)]
               = Ok (twin_signals_out, [])) by (vm_compute; reflexivity).
  assert (H3 : main [(plain_input "a.brd", notes_doc)]
               = Ok (notes_out, [("a.brd", [inl "Compatibility notes ignored"])]))
    by (vm_compute; reflexivity).
  split_and!.
  - exact H1.
  - eapply identity_merge_fails; [exact H1|vm_compute; reflexivity|].
    vm_compute. discriminate.
  - vm_compute. reflexivity.
  - vm_compute. reflexivity.
  - apply identity_merge_compact; vm_compute; reflexivity.
  - exact H2.
  - eapply identity_merge_fails; [exact H2|vm_compute; reflexivity|].
    vm_compute. discriminate.
  - exact H3.
  - eapply identity_merge_fails; [exact H3|vm_compute; reflexivity|].
    vm_compute. discriminate.
Qed.

(** C1, amended: merging exactly one input, with rotation 0 and offsets
    (0,0), gives without any warning the input's own tree, in which the
    root, the drawing, the board and the sections that the merge builds
    child by child (settings, layers, plain, libraries, elements, signals,
    errors) have neither text nor trailing text, for every input in normal
    form: the root is an eagle element with at most a version attribute and
    at most one child, a drawing; the containers have no attributes, no two
    sections of one tag and no section of an unknown tag; there is at most
    one setting; layer numbers, library names, element names and signal
    names are present and differ; the errors section is empty; and of every
    node that the geometry walk visits the tag is one it knows, the
    coordinates are present and written as Python prints a float (0.0, not
    0 and not -0.0) and the orientation, if it has one, is letters and a
    degree from 0 to 359.  If the input's containers have no text and no
    trailing text either, the output is the input, and C1 holds as it is
    stated. *)
Theorem merge_of_one_normal_input_rebuilds_it (p : string) (doc : node) :
  normal_form doc = true ->
  main [(plain_input p, doc)] = Ok (rebuilt doc, [])
  /\ (rebuilt doc = doc -> identity_merge_holds p doc).
Proof.
  intros Hn. split; [by apply main_identity|by apply identity_merge_compact].
Qed.

Lemma merge_of_one_normal_input_rebuilds_it_witness :
  main [(plain_input "a.brd", normal_doc)] = Ok (rebuilt normal_doc, [])
  /\ (rebuilt normal_doc = normal_doc -> identity_merge_holds "a.brd" normal_doc).
Proof.
  apply (merge_of_one_normal_input_rebuilds_it "a.brd" normal_doc).
  vm_compute. reflexivity.
Defined.
